(** * NostalgiaOS asset converters: icon and start-button bitmap decoding

    A shallow embedding of [assets/icons/convert_icons.py] and
    [assets/icons/convert_start_bmp.py], with the properties of the
    decoders stated and proved over it.

    Layout of the development:
    - the Python runtime pieces both scripts rely on (exceptions, a binary
      file opened for reading, [struct.unpack], [range], text);
    - [ConvertIcons]: [parse_ico], [bmp_to_rgba], [generate_rust_code]
      and [main];
    - [ConvertStartBmp]: [read_bmp_4bit], [generate_rust_code] and
      [main];
    - the theorems, in the same order, then further properties of the
      decoders and of the generated text. *)

From Stdlib Require Import ZArith List Bool Lia.
From Stdlib Require Import Strings.Byte.
From Stdlib Require Strings.Ascii Strings.String.
From Stdlib Require DecimalString HexadecimalString.
Import ListNotations.
Open Scope Z_scope.

(** ** Exceptions and results *)

(** The exceptions the two scripts can raise.  The first three come from
    the runtime, the others are the [ValueError]s the scripts raise
    themselves, told apart by their message. *)
Inductive exn : Type :=
| TruncatedInput     (* struct.error: unpack requires a buffer of n bytes *)
| IndexError         (* index out of range on a bytes or list object *)
| ReadLengthError    (* ValueError: read length must be non-negative or -1 *)
| SeekError          (* ValueError: negative seek value *)
| InvalidContainer   (* ValueError: Not a valid ICO file *)
| NoMatchingEntry    (* ValueError: No 32x32 image found *)
| DimensionMismatch  (* ValueError: Expected 32x32, got ... *)
| NotBmp             (* ValueError: Not a BMP file *)
| UnsupportedDepth.  (* ValueError: Expected 4-bit BMP, got ... *)

Inductive result (A : Type) : Type :=
| Ok (a : A)
| Raise (e : exn).
Arguments Ok {A} a.
Arguments Raise {A} e.

Definition rbind {A B} (r : result A) (k : A -> result B) : result B :=
  match r with
  | Ok a => k a
  | Raise e => Raise e
  end.

Declare Scope result_scope.
Delimit Scope result_scope with result.
Notation "x <-? r ;; k" := (rbind r (fun x => k))
  (at level 61, r at next level, right associativity) : result_scope.
Notation "' pat <-? r ;; k" := (rbind r (fun x => match x with pat => k end))
  (at level 61, pat pattern, r at next level, right associativity)
  : result_scope.
Open Scope result_scope.

(** ** Bytes and [struct.unpack] *)

Definition byte_val (b : byte) : Z := Z.of_N (Byte.to_N b).

Definition byte_of_Z (z : Z) : byte :=
  match Byte.of_N (Z.to_N z) with
  | Some b => b
  | None => x00
  end.

(** Little-endian unsigned value of a byte string. *)
Fixpoint le_unsigned (bs : list byte) : Z :=
  match bs with
  | [] => 0
  | b :: rest => byte_val b + 256 * le_unsigned rest
  end.

(** Two's complement reading of a 32-bit pattern. *)
Definition to_signed32 (u : Z) : Z :=
  if u <? 2 ^ 31 then u else u - 2 ^ 32.

(** [struct.unpack(fmt, bs)[0]] for a format of [n] bytes: the buffer must
    have exactly [n] bytes. *)
Definition unpack_uint (n : nat) (bs : list byte) : result Z :=
  if Nat.eqb (length bs) n then Ok (le_unsigned bs) else Raise TruncatedInput.

Definition unpack_B := unpack_uint 1.   (* '<B' *)
Definition unpack_H := unpack_uint 2.   (* '<H' *)
Definition unpack_I := unpack_uint 4.   (* '<I' *)

Definition unpack_i (bs : list byte) : result Z :=   (* '<i' *)
  u <-? unpack_uint 4 bs ;; Ok (to_signed32 u).

(** [struct.unpack('BBBB', bs)]. *)
Definition unpack_BBBB (bs : list byte) : result (Z * Z * Z * Z) :=
  match bs with
  | [b0; b1; b2; b3] => Ok (byte_val b0, byte_val b1, byte_val b2, byte_val b3)
  | _ => Raise TruncatedInput
  end.

(** A Python slice [bs[lo:hi]] with [0 <= lo <= hi]: it is clamped to the
    object, never out of range. *)
Definition slice {A} (bs : list A) (lo hi : nat) : list A :=
  firstn (hi - lo) (skipn lo bs).

(** [bs[i]] on a bytes object, with a non-negative index. *)
Definition index_bytes (bs : list byte) (i : Z) : result Z :=
  match nth_error bs (Z.to_nat i) with
  | Some b => Ok (byte_val b)
  | None => Raise IndexError
  end.

(** [xs[i]] on a list, with a non-negative index. *)
Definition index_list {A} (xs : list A) (i : Z) : result A :=
  match nth_error xs (Z.to_nat i) with
  | Some a => Ok a
  | None => Raise IndexError
  end.

(** [a == b] on bytes objects. *)
Definition bytes_eqb (a b : list byte) : bool :=
  Nat.eqb (length a) (length b)
  && forallb (fun p => Byte.eqb (fst p) (snd p)) (combine a b).

(** ** [range] *)

(** [range(n)]. *)
Definition range (n : Z) : list Z :=
  map Z.of_nat (seq 0 (Z.to_nat n)).

(** [range(start, stop, -1)]. *)
Definition range_down (start stop : Z) : list Z :=
  map (fun k => start - Z.of_nat k) (seq 0 (Z.to_nat (start - stop))).

(** ** A binary file opened for reading

    The contents are read-only; the only state is the position.  The
    position is kept when an exception is raised, as it is on the file
    object. *)

Definition io (A : Type) : Type := list byte -> nat -> result A * nat.

Definition ret {A} (a : A) : io A := fun _ pos => (Ok a, pos).

Definition raise {A} (e : exn) : io A := fun _ pos => (Raise e, pos).

Definition bind {A B} (m : io A) (k : A -> io B) : io B :=
  fun buf pos =>
    match m buf pos with
    | (Ok a, pos') => k a buf pos'
    | (Raise e, pos') => (Raise e, pos')
    end.

Definition lift {A} (r : result A) : io A :=
  match r with
  | Ok a => ret a
  | Raise e => raise e
  end.

Declare Scope io_scope.
Delimit Scope io_scope with io.
Notation "x <- m ;; k" := (bind m (fun x => k))
  (at level 61, m at next level, right associativity) : io_scope.
Notation "m ;;; k" := (bind m (fun _ => k))
  (at level 61, right associativity) : io_scope.
Notation "' pat <- m ;; k" := (bind m (fun x => match x with pat => k end))
  (at level 61, pat pattern, m at next level, right associativity) : io_scope.
Open Scope io_scope.

(** [f.read(n)]: at most [n] bytes from the position, fewer at the end of
    the file; [-1] reads to the end, anything lower is refused. *)
Definition f_read (n : Z) : io (list byte) :=
  fun buf pos =>
    if n <? -1 then (Raise ReadLengthError, pos)
    else
      let rest := skipn pos buf in
      let data := if n =? -1 then rest else firstn (Z.to_nat n) rest in
      (Ok data, (pos + length data)%nat).

(** [f.seek(offset)]: any non-negative offset is accepted, also past the
    end of the file. *)
Definition f_seek (offset : Z) : io unit :=
  fun _ pos =>
    if offset <? 0 then (Raise SeekError, pos)
    else (Ok tt, Z.to_nat offset).

(** [with open(path, 'rb') as f: body], on the contents of the file. *)
Definition with_open {A} (body : io A) (contents : list byte) : result A :=
  fst (body contents 0%nat).

(** [for _ in range(n): state = body(state)], the index unused. *)
Fixpoint repeat_io {S} (n : nat) (body : S -> io S) (s : S) : io S :=
  match n with
  | O => ret s
  | Datatypes.S n' => s' <- body s ;; repeat_io n' body s'
  end.

(** [for x in xs: state = body(state, x)]. *)
Fixpoint for_io {S X} (xs : list X) (body : S -> X -> io S) (s : S) : io S :=
  match xs with
  | [] => ret s
  | x :: rest => s' <- body s x ;; for_io rest body s'
  end.

(** The same loop without a file. *)
Fixpoint for_each {S X} (xs : list X) (body : S -> X -> result S) (s : S)
  : result S :=
  match xs with
  | [] => Ok s
  | x :: rest => rbind (body s x) (for_each rest body)
  end.

(** [range(0, stop, step)] for a positive step. *)
Definition range_step (stop step : Z) : list Z :=
  map (fun k => Z.of_nat k * step)
    (seq 0 (Z.to_nat ((stop + step - 1) / step))).

(** ** Text *)

Module Text.

Import Ascii String.

(** The line feed. *)
Definition nl : string := String (ascii_of_nat 10) EmptyString.

(** [str(n)] for an integer. *)
Definition str_int (z : Z) : string :=
  DecimalString.NilZero.string_of_int (Z.to_int z).

(** The strings of ASCII characters: every character is below 128. *)
Fixpoint ascii_only (s : string) : bool :=
  match s with
  | EmptyString => true
  | String c rest => Nat.ltb (nat_of_ascii c) 128 && ascii_only rest
  end.

(** [s.upper()] on a string of ASCII characters: the letters a to z
    become A to Z and every other character stays.  Python's [str.upper]
    follows Unicode, and on a character of 128 or more it may give
    another character, or two; [upper] is that method on the strings of
    [ascii_only] and on no other.  The names given in [main] are such
    strings, and a statement about the heading of a name that is not
    given assumes [ascii_only] of it. *)
Definition upper_char (c : ascii) : ascii :=
  let n := nat_of_ascii c in
  if Nat.leb 97 n && Nat.leb n 122 then ascii_of_nat (n - 32) else c.

Fixpoint upper (s : string) : string :=
  match s with
  | EmptyString => EmptyString
  | String c rest => String (upper_char c) (upper rest)
  end.

(** The hexadecimal digits of a natural number, in lower case. *)
Definition hex_digits (n : N) : string :=
  HexadecimalString.NilZero.string_of_uint (N.to_hex_uint n).

(** [format(b, '02x')]: the sign if any, then the digits, with zeros
    between them up to a width of two. *)
Definition format_02x (b : Z) : string :=
  if b <? 0 then ("-" ++ hex_digits (Z.to_N (- b)))%string
  else
    let digits := hex_digits (Z.to_N b) in
    if Nat.ltb (String.length digits) 2 then ("0" ++ digits)%string
    else digits.

End Text.

(** ** convert_icons.py *)

Module ConvertIcons.

(** [best_entry]: [None] or the tuple
    [(image_offset, bit_count, bytes_in_res)]. *)
Definition entry : Type := Z * Z * Z.

(** One turn of the loop over the directory. *)
Definition read_dir_entry (best_entry : option entry) : io (option entry) :=
  bs <- f_read 1 ;; width <- lift (unpack_B bs) ;;
  bs <- f_read 1 ;; height <- lift (unpack_B bs) ;;
  bs <- f_read 1 ;; color_count <- lift (unpack_B bs) ;;
  bs <- f_read 1 ;; reserved <- lift (unpack_B bs) ;;
  bs <- f_read 2 ;; planes <- lift (unpack_H bs) ;;
  bs <- f_read 2 ;; bit_count <- lift (unpack_H bs) ;;
  bs <- f_read 4 ;; bytes_in_res <- lift (unpack_I bs) ;;
  bs <- f_read 4 ;; image_offset <- lift (unpack_I bs) ;;
  let width := if width =? 0 then 256 else width in
  let height := if height =? 0 then 256 else height in
  ret (if (width =? 32) && (height =? 32) then
         match best_entry with
         | None => Some (image_offset, bit_count, bytes_in_res)
         | Some (_, best_bits, _) =>
             if bit_count >? best_bits
             then Some (image_offset, bit_count, bytes_in_res)
             else best_entry
         end
       else best_entry).

Definition parse_ico_body : io (list byte * Z) :=
  bs <- f_read 2 ;; reserved <- lift (unpack_H bs) ;;
  bs <- f_read 2 ;; type_field <- lift (unpack_H bs) ;;
  bs <- f_read 2 ;; count <- lift (unpack_H bs) ;;
  if negb (reserved =? 0) || negb (type_field =? 1) then
    raise InvalidContainer
  else
    best_entry <- repeat_io (Z.to_nat count) read_dir_entry None ;;
    match best_entry with
    | None => raise NoMatchingEntry
    | Some (offset, bit_count, size) =>
        f_seek offset ;;;
        image_data <- f_read size ;;
        ret (image_data, bit_count)
    end.

Definition parse_ico (ico : list byte) : result (list byte * Z) :=
  with_open parse_ico_body ico.

(** What [print] writes: the only line [bmp_to_rgba] ever prints. *)
Inductive event : Type :=
| Warning_placeholder (bit_count : Z).
  (* Warning: {bit_count}-bit icons not fully supported, using placeholder *)

(** [bmp_to_rgba]: the pixels returned, with the lines printed. *)
Definition bmp_to_rgba (bmp_data : list byte) (bit_count : Z)
  : result (list Z * list event) :=
  header_size <-? unpack_I (slice bmp_data 0 4) ;;
  width <-? unpack_i (slice bmp_data 4 8) ;;
  height <-? unpack_i (slice bmp_data 8 12) ;;
  let actual_height := Z.abs height / 2 in
  if negb (width =? 32) || negb (actual_height =? 32) then
    Raise DimensionMismatch
  else if bit_count =? 32 then
    let pixel_offset := 40 in
    pixels <-?
      for_each (range_down 31 (-1)) (fun pixels y =>
        for_each (range 32) (fun pixels x =>
          let offset := pixel_offset + (y * 32 + x) * 4 in
          b <-? index_bytes bmp_data offset ;;
          g <-? index_bytes bmp_data (offset + 1) ;;
          r <-? index_bytes bmp_data (offset + 2) ;;
          a <-? index_bytes bmp_data (offset + 3) ;;
          Ok (pixels ++ [r; g; b; a])) pixels) [] ;;
    Ok (pixels, [])
  else
    pixels <-?
      for_each (range (32 * 32)) (fun pixels i =>
        Ok (pixels ++ [128; 128; 192; 255])) [] ;;
    Ok (pixels, [Warning_placeholder bit_count]).

(** The body of the [try] in [main]: one icon file to its pixels. *)
Definition convert_icon (ico : list byte) : result (list Z * list event) :=
  '(image_data, bit_count) <-? parse_ico ico ;;
  bmp_to_rgba image_data bit_count.

Import Ascii String Text.

(** [generate_rust_code(icon_name, pixels)]. *)
Definition generate_rust_code (icon_name : string) (pixels : list Z)
  : string :=
  let code :=
    ("// Auto-generated from " ++ icon_name ++ ".ico" ++ nl
     ++ "pub const " ++ upper icon_name ++ "_WIDTH: usize = 32;" ++ nl
     ++ "pub const " ++ upper icon_name ++ "_HEIGHT: usize = 32;" ++ nl
     ++ "pub const " ++ upper icon_name ++ "_DATA: [u8; "
     ++ str_int (Z.of_nat (List.length pixels)) ++ "] = [" ++ nl)%string in
  let code :=
    fold_left (fun code i =>
      let chunk := slice pixels (Z.to_nat i) (Z.to_nat (i + 16)) in
      (code ++ (("    "
                 ++ String.concat ", "
                      (map (fun b => "0x" ++ format_02x b) chunk))
                ++ "," ++ nl))%string)
      (range_step (Z.of_nat (List.length pixels)) 16) code in
  (code ++ "];" ++ nl)%string.

(** What the [try] of [main] can catch: an exception of the decoders, or
    the file that cannot be opened. *)
Inductive failure : Type :=
| Raised (e : exn)
| No_such_file.

(** What [main] prints. *)
Inductive main_event : Type :=
| Converting (icon_file : string)
| Printed (e : event)
| Error_processing (icon_file : string) (e : failure)
| Generated.

(** The dictionary [icons] of [main], in its order. *)
Definition icons : list (string * string) :=
  [("MY_COMPUTER", "my_computer.ico");
   ("MY_DOCUMENTS", "my_documents.ico");
   ("RECYCLE_BIN", "recycle_bin.ico");
   ("NETWORK_PLACES", "network_places.ico")]%string.

(** [main], given the icons to convert in the order of the dictionary
    and, for each file name, the contents of the file if there is one:
    the text written to the output file, and what is printed.  A file
    that cannot be opened raises in [parse_ico], inside the [try]. *)
Definition main (icons : list (string * string))
    (files : string -> option (list byte)) : string * list main_event :=
  let rust_code :=
    ("// Auto-generated desktop icon data from Windows XP .ico files"
     ++ nl ++ nl)%string in
  let '(rust_code, printed) :=
    fold_left (fun '(rust_code, printed) '(icon_name, icon_file) =>
      let printed := (printed ++ [Converting icon_file])%list in
      match files icon_file with
      | None =>
          (rust_code,
           (printed ++ [Error_processing icon_file No_such_file])%list)
      | Some ico =>
          match parse_ico ico with
          | Raise e =>
              (rust_code,
               (printed ++ [Error_processing icon_file (Raised e)])%list)
          | Ok (image_data, bit_count) =>
              match bmp_to_rgba image_data bit_count with
              | Raise e =>
                  (rust_code,
                   (printed
                    ++ [Error_processing icon_file (Raised e)])%list)
              | Ok (pixels, events) =>
                  ((rust_code ++ generate_rust_code icon_name pixels
                    ++ nl)%string,
                   (printed ++ map Printed events)%list)
              end
          end
      end) icons (rust_code, []) in
  (rust_code, (printed ++ [Generated])%list).

End ConvertIcons.

(** ** convert_start_bmp.py *)

Module ConvertStartBmp.

(** A palette entry is the tuple [(r, g, b, a)]. *)
Definition color : Type := Z * Z * Z * Z.

(** One turn of the loop that reads the palette. *)
Definition read_palette_entry (palette : list color) : io (list color) :=
  bs <- f_read 4 ;;
  '(b, g, r, reserved) <- lift (unpack_BBBB bs) ;;
  if (r >? 200) && (b >? 200) && (g <? 50) then
    ret (palette ++ [(r, g, b, 0)])
  else
    ret (palette ++ [(r, g, b, 255)]).

(** The inner loop: the pixels of one row. *)
Definition decode_row (palette : list color) (row_data : list byte)
    (width : Z) (pixels : list Z) : result (list Z) :=
  for_each (range width) (fun pixels x =>
    let byte_index := x / 2 in
    palette_index <-?
      (if x mod 2 =? 0 then
         v <-? index_bytes row_data byte_index ;;
         Ok (Z.land (Z.shiftr v 4) 15)
       else
         v <-? index_bytes row_data byte_index ;;
         Ok (Z.land v 15)) ;;
    '(r, g, b, a) <-? index_list palette palette_index ;;
    Ok (pixels ++ [r; g; b; a])) pixels.

Definition read_bmp_4bit_body : io (Z * Z * list Z) :=
  header <- f_read 14 ;;
  if negb (bytes_eqb (slice header 0 2) [x42; x4d]) then
    raise NotBmp
  else
    pixel_offset <- lift (unpack_I (slice header 10 14)) ;;
    bs <- f_read 4 ;; dib_size <- lift (unpack_I bs) ;;
    bs <- f_read 4 ;; width <- lift (unpack_i bs) ;;
    bs <- f_read 4 ;; height <- lift (unpack_i bs) ;;
    f_read 2 ;;;
    bs <- f_read 2 ;; bit_count <- lift (unpack_H bs) ;;
    if negb (bit_count =? 4) then
      raise UnsupportedDepth
    else
      f_seek (14 + dib_size) ;;;
      palette <- repeat_io 16 read_palette_entry [] ;;
      f_seek pixel_offset ;;;
      let row_size := ((width * 4 + 31) / 32) * 4 in
      pixels <-
        for_io (range_down (height - 1) (-1)) (fun pixels y =>
          row_data <- f_read row_size ;;
          lift (decode_row palette row_data width pixels)) [] ;;
      ret (width, height, pixels).

Definition read_bmp_4bit (bmp : list byte) : result (Z * Z * list Z) :=
  with_open read_bmp_4bit_body bmp.

Import Ascii String Text.

(** [generate_rust_code(width, height, pixels)]. *)
Definition generate_rust_code (width height : Z) (pixels : list Z)
  : string :=
  let code :=
    ("// Auto-generated from start16.bmp" ++ nl
     ++ "pub const WINDOWS_LOGO_WIDTH: usize = " ++ str_int width ++ ";" ++ nl
     ++ "pub const WINDOWS_LOGO_HEIGHT: usize = " ++ str_int height ++ ";"
     ++ nl
     ++ "pub const WINDOWS_LOGO_DATA: [u8; "
     ++ str_int (Z.of_nat (List.length pixels)) ++ "] = [" ++ nl)%string in
  let code :=
    fold_left (fun code i =>
      let chunk := slice pixels (Z.to_nat i) (Z.to_nat (i + 16)) in
      (code ++ (("    "
                 ++ String.concat ", "
                      (map (fun b => "0x" ++ format_02x b) chunk))
                ++ "," ++ nl))%string)
      (range_step (Z.of_nat (List.length pixels)) 16) code in
  (code ++ "];" ++ nl)%string.

(** [main], on the contents of start16.bmp: the text written to the
    output file.  Nothing is caught: what [read_bmp_4bit] raises, [main]
    raises. *)
Definition main (bmp : list byte) : result string :=
  '(width, height, pixels) <-? read_bmp_4bit bmp ;;
  Ok (generate_rust_code width height pixels).

End ConvertStartBmp.

(** ** Concrete files

    Small, complete files built field by field, on which the decoders are
    run in the examples below. *)

Definition bytes_of (zs : list Z) : list byte := map byte_of_Z zs.

Definition u16le (z : Z) : list Z := [z mod 256; (z / 256) mod 256].

Definition u32le (z : Z) : list Z :=
  [z mod 256; (z / 256) mod 256; (z / 65536) mod 256; (z / 16777216) mod 256].

Definition i32le (z : Z) : list Z := u32le (z mod 2 ^ 32).

(** The 16 palette entries of the sample bitmaps, as stored (blue, green,
    red, reserved): entry [k] is a grey ramp, but entry 3 is pure red and
    entry 15 is the magenta colour key. *)
Definition sample_palette_bytes : list Z :=
  flat_map (fun k =>
    if k =? 3 then [0; 0; 255; 0]
    else if k =? 15 then [255; 0; 255; 0]
    else [16 * k; 16 * k + 1; 16 * k + 2; 0]) (range 16).

(** A 4-bit bitmap file with a 40-byte DIB header, the sample palette and
    the given pixel bytes. *)
Definition make_bmp (width height bit_count : Z) (pixel_data : list Z)
  : list byte :=
  bytes_of
    ([66; 77] ++ u32le (118 + Z.of_nat (length pixel_data)) ++ u32le 0
       ++ u32le 118
     ++ u32le 40 ++ i32le width ++ i32le height ++ u16le 1 ++ u16le bit_count
       ++ repeat 0 24
     ++ sample_palette_bytes
     ++ pixel_data).

(** Two stored rows of three pixels; the last two bytes of each row are
    padding, and are not zero. *)
Definition sample_rows : list Z := [63; 16; 170; 187; 33; 240; 204; 221].

Definition sample_bmp : list byte := make_bmp 3 2 4 sample_rows.
Definition sample_bmp_top_down : list byte := make_bmp 3 (-2) 4 sample_rows.
Definition sample_bmp_8bit : list byte := make_bmp 3 2 8 sample_rows.

(** A directory entry of an icon file. *)
Definition ico_dir_entry (width height bit_count size offset : Z) : list Z :=
  [width; height; 0; 0] ++ u16le 1 ++ u16le bit_count
    ++ u32le size ++ u32le offset.

Definition ico_header (reserved type_field count : Z) : list Z :=
  u16le reserved ++ u16le type_field ++ u16le count.

(** The DIB of an icon image: a 40-byte header, then the pixel bytes. *)
Definition make_dib (width height bit_count : Z) (pixel_data : list Z)
  : list Z :=
  u32le 40 ++ i32le width ++ i32le height ++ u16le 1 ++ u16le bit_count
    ++ repeat 0 24 ++ pixel_data.

(** 32 rows of 32 BGRA pixels: pixel [(y, x)] of the stored data is
    [(x, y, 7, 255)] as blue, green, red, alpha. *)
Definition sample_bgra : list Z :=
  flat_map (fun y => flat_map (fun x => [x; y; 7; 255]) (range 32)) (range 32).

Definition sample_dib32 : list byte := bytes_of (make_dib 32 64 32 sample_bgra).
Definition sample_dib8 : list byte := bytes_of (make_dib 32 64 8 []).
Definition sample_dib8_16x16 : list byte := bytes_of (make_dib 16 32 8 []).
Definition sample_dib8_top_down : list byte :=
  bytes_of (make_dib 32 (-64) 8 []).

(** An icon file with five images: 16x16 at 32 bits, then 32x32 at 8, 32,
    32 and 24 bits.  The image data of entry [k] is the single byte [k]. *)
Definition sample_ico : list byte :=
  bytes_of
    (ico_header 0 1 5
     ++ ico_dir_entry 16 16 32 1 86
     ++ ico_dir_entry 32 32 8 1 87
     ++ ico_dir_entry 32 32 32 1 88
     ++ ico_dir_entry 32 32 32 1 89
     ++ ico_dir_entry 32 32 24 1 90
     ++ [0; 1; 2; 3; 4]).

(** An icon file whose only image is the 32-bit sample. *)
Definition sample_ico32 : list byte :=
  bytes_of (ico_header 0 1 1 ++ ico_dir_entry 32 32 32 4136 22) ++ sample_dib32.

(** An icon file whose directory announces a 32x32 image at 8 bits, the
    image itself declaring 16x16. *)
Definition sample_ico8_16x16 : list byte :=
  bytes_of (ico_header 0 1 1 ++ ico_dir_entry 32 32 8 40 22)
    ++ sample_dib8_16x16.

(** An icon file without a 32x32 image (one image, 256x256). *)
Definition sample_ico_no32 : list byte :=
  bytes_of (ico_header 0 1 1 ++ ico_dir_entry 0 0 32 1 22 ++ [0]).

(** A palette entry alone: the magenta colour key, as stored. *)
Definition sample_magenta : list byte := bytes_of [255; 0; 255; 0].

(** A header that is not an icon header ([reserved = 1]), alone. *)
Definition sample_bad_header : list byte := bytes_of (ico_header 1 1 3).

(** A valid header that announces three images, with one entry only. *)
Definition sample_ico_truncated : list byte :=
  bytes_of (ico_header 0 1 3 ++ ico_dir_entry 32 32 32 1 54).

(** ** Views of a file used in the statements

    The fields of a file by absolute position.  The decoders read their
    input front to back; the theorems relate what they return to these
    views. *)

(** The [n] bytes at position [pos] (fewer at the end of the file). *)
Definition chunk (buf : list byte) (pos n : nat) : list byte :=
  firstn n (skipn pos buf).

Definition uint_at (buf : list byte) (pos n : nat) : Z :=
  le_unsigned (chunk buf pos n).

Definition int32_at (buf : list byte) (pos : nat) : Z :=
  to_signed32 (uint_at buf pos 4).

(** The byte at index [i], or [0] past the end. *)
Definition byte_nth (buf : list byte) (i : nat) : Z :=
  match nth_error buf i with
  | Some b => byte_val b
  | None => 0
  end.

Definition byte_at (buf : list byte) (i : Z) : Z := byte_nth buf (Z.to_nat i).

(** [pixels.extend(f(x))] as a loop body, and the loop from an empty
    list. *)
Definition extend_with {X} (f : X -> result (list Z))
  : list Z -> X -> result (list Z) :=
  fun pixels x => v <-? f x ;; Ok (pixels ++ v).

Definition collect {X} (f : X -> result (list Z)) (xs : list X)
  : result (list Z) :=
  for_each xs (extend_with f) [].

Module IcoView.

Definition reserved (ico : list byte) : Z := uint_at ico 0 2.
Definition type_field (ico : list byte) : Z := uint_at ico 2 2.
Definition count (ico : list byte) : Z := uint_at ico 4 2.

Definition valid_header (ico : list byte) : Prop :=
  reserved ico = 0 /\ type_field ico = 1.

(** A directory entry, its width and height normalised (0 means 256). *)
Record descriptor : Type := {
  width : Z;
  height : Z;
  bit_count : Z;
  bytes_in_res : Z;
  image_offset : Z
}.

Definition normalise (v : Z) : Z := if v =? 0 then 256 else v.

Definition descriptor_at (ico : list byte) (pos : nat) : descriptor :=
  {| width := normalise (uint_at ico pos 1);
     height := normalise (uint_at ico (pos + 1) 1);
     bit_count := uint_at ico (pos + 6) 2;
     bytes_in_res := uint_at ico (pos + 8) 4;
     image_offset := uint_at ico (pos + 12) 4 |}.

(** The descriptors from position [pos] on, [n] of them. *)
Definition descriptors_from (ico : list byte) (pos n : nat) : list descriptor :=
  map (fun i => descriptor_at ico (pos + 16 * i)) (seq 0 n).

Definition directory (ico : list byte) : list descriptor :=
  descriptors_from ico 6 (Z.to_nat (count ico)).

(** The directory is wholly inside the file. *)
Definition complete_directory (ico : list byte) : Prop :=
  (6 + 16 * Z.to_nat (count ico) <= length ico)%nat.

Definition is_32x32 (d : descriptor) : Prop := width d = 32 /\ height d = 32.

Definition is_32x32b (d : descriptor) : bool :=
  (width d =? 32) && (height d =? 32).

(** The bytes of the image a descriptor points to, as far as the file
    goes. *)
Definition image_data (ico : list byte) (d : descriptor) : list byte :=
  chunk ico (Z.to_nat (image_offset d)) (Z.to_nat (bytes_in_res d)).

Definition entry_of (d : descriptor) : ConvertIcons.entry :=
  (image_offset d, bit_count d, bytes_in_res d).

(** [d], at index [i] of [seen], is the choice the selection rule makes
    among [seen]: it is 32x32, no 32x32 descriptor has more bits, and the
    32x32 descriptors before it have fewer. *)
Definition chosen (seen : list descriptor) (i : nat) (d : descriptor) : Prop :=
  nth_error seen i = Some d /\ is_32x32 d /\
  forall j d', nth_error seen j = Some d' -> is_32x32 d' ->
    bit_count d' <= bit_count d /\ ((j < i)%nat -> bit_count d' < bit_count d).

(** The invariant of the directory loop. *)
Inductive best_so_far (seen : list descriptor)
  : option ConvertIcons.entry -> Prop :=
| best_none :
    Forall (fun d => ~ is_32x32 d) seen -> best_so_far seen None
| best_some i d :
    chosen seen i d -> best_so_far seen (Some (entry_of d)).

(** What one turn of the directory loop does to [best_entry]. *)
Definition keep_best (best : option ConvertIcons.entry) (d : descriptor)
  : option ConvertIcons.entry :=
  if is_32x32b d then
    match best with
    | None => Some (image_offset d, bit_count d, bytes_in_res d)
    | Some (_, best_bits, _) =>
        if bit_count d >? best_bits
        then Some (image_offset d, bit_count d, bytes_in_res d)
        else best
    end
  else best.

End IcoView.

Module DibView.

(** The geometry an icon image declares in its own header. *)
Definition width (bmp_data : list byte) : Z := int32_at bmp_data 4.
Definition height (bmp_data : list byte) : Z := int32_at bmp_data 8.
Definition actual_height (bmp_data : list byte) : Z :=
  Z.abs (height bmp_data) / 2.

(** Where the stored pixel [(y, x)] of a 32-bit 32x32 image starts. *)
Definition pixel_start (y x : Z) : Z := 40 + (y * 32 + x) * 4.

(** The stored pixel [(y, x)], reordered from blue, green, red, alpha to
    red, green, blue, alpha. *)
Definition rgba_at (bmp_data : list byte) (y x : Z) : list Z :=
  [byte_at bmp_data (pixel_start y x + 2);
   byte_at bmp_data (pixel_start y x + 1);
   byte_at bmp_data (pixel_start y x);
   byte_at bmp_data (pixel_start y x + 3)].

(** The stored row [y], each pixel reordered. *)
Definition rgba_row (bmp_data : list byte) (y : Z) : list Z :=
  flat_map (rgba_at bmp_data y) (range 32).

(** What the body of the inner loop extends [pixels] with. *)
Definition pixel_at (bmp_data : list byte) (y x : Z) : result (list Z) :=
  b <-? index_bytes bmp_data (pixel_start y x) ;;
  g <-? index_bytes bmp_data (pixel_start y x + 1) ;;
  r <-? index_bytes bmp_data (pixel_start y x + 2) ;;
  a <-? index_bytes bmp_data (pixel_start y x + 3) ;;
  Ok [r; g; b; a].

(** The placeholder image: 32 * 32 times the same colour. *)
Definition placeholder_color : list Z := [128; 128; 192; 255].
Definition placeholder : list Z := concat (repeat placeholder_color 1024).

End DibView.

Module BmpView.

(** The fields of the file header and of the DIB header. *)
Definition magic_ok (bmp : list byte) : bool :=
  bytes_eqb (chunk bmp 0 2) [x42; x4d].
Definition pixel_offset (bmp : list byte) : Z := uint_at bmp 10 4.
Definition dib_size (bmp : list byte) : Z := uint_at bmp 14 4.
Definition width (bmp : list byte) : Z := int32_at bmp 18.
Definition height (bmp : list byte) : Z := int32_at bmp 22.
Definition bit_count (bmp : list byte) : Z := uint_at bmp 28 2.

(** The file starts with the magic and goes as far as the bit count. *)
Definition has_header (bmp : list byte) : Prop :=
  magic_ok bmp = true /\ (30 <= length bmp)%nat.

Definition palette_start (bmp : list byte) : nat :=
  Z.to_nat (14 + dib_size bmp).

(** A 4-bit bitmap as far as its palette: the header, the bit count 4 and
    the 64 bytes of palette inside the file. *)
Definition has_palette (bmp : list byte) : Prop :=
  has_header bmp /\ bit_count bmp = 4
  /\ (palette_start bmp + 64 <= length bmp)%nat.

(** The palette entry made of the stored bytes blue, green, red. *)
Definition palette_color (b g r : Z) : ConvertStartBmp.color :=
  if (r >? 200) && (b >? 200) && (g <? 50) then (r, g, b, 0)
  else (r, g, b, 255).

Definition palette_entry_at (bmp : list byte) (pos : nat)
  : ConvertStartBmp.color :=
  palette_color (byte_nth bmp pos) (byte_nth bmp (pos + 1))
    (byte_nth bmp (pos + 2)).

Definition palette_from (bmp : list byte) (pos n : nat)
  : list ConvertStartBmp.color :=
  map (fun k => palette_entry_at bmp (pos + 4 * k)) (seq 0 n).

Definition palette (bmp : list byte) : list ConvertStartBmp.color :=
  palette_from bmp (palette_start bmp) 16.

(** [ceil(a / b)] on integers, for a positive [b]. *)
Definition ceil_div (a b : Z) : Z := - ((- a) / b).

(** The bytes one stored row takes. *)
Definition row_size (width : Z) : Z := ((width * 4 + 31) / 32) * 4.

(** The same as a number of bytes, and the bytes of a row that hold
    pixels. *)
Definition row_bytes (width : Z) : nat := Z.to_nat (row_size width).
Definition pixel_bytes (width : Z) : nat := Z.to_nat ((width + 1) / 2).

(** The palette index of pixel [x] in a byte [v]: the high nibble for an
    even [x], the low nibble for an odd one. *)
Definition nibble (v x : Z) : Z :=
  if x mod 2 =? 0 then v / 16 else v mod 16.

Definition rgba_of (c : ConvertStartBmp.color) : list Z :=
  let '(r, g, b, a) := c in [r; g; b; a].

(** Pixel [x] of a row whose bytes start at [start]: the byte it lies in,
    its palette index, its colour. *)
Definition pixel_byte (bmp : list byte) (start : nat) (x : Z) : Z :=
  byte_nth bmp (start + Z.to_nat (x / 2)).

Definition pixel_rgba (palette : list ConvertStartBmp.color)
    (bmp : list byte) (start : nat) (x : Z) : list Z :=
  rgba_of (nth (Z.to_nat (nibble (pixel_byte bmp start x) x)) palette
             (0, 0, 0, 0)).

(** Where the [k]-th stored row starts. *)
Definition row_start (bmp : list byte) (k : nat) : nat :=
  Z.to_nat (pixel_offset bmp) + k * Z.to_nat (row_size (width bmp)).

(** The pixels of the [k]-th stored row, left to right. *)
Definition stored_row (bmp : list byte) (k : nat) : list Z :=
  flat_map (pixel_rgba (palette bmp) bmp (row_start bmp k))
    (range (width bmp)).

(** The stored rows, in the order they are stored. *)
Definition stored_rows (bmp : list byte) : list Z :=
  flat_map (stored_row bmp) (seq 0 (Z.to_nat (height bmp))).

(** What the body of the inner loop extends [pixels] with. *)
Definition row_pixel (palette : list ConvertStartBmp.color)
    (row_data : list byte) (x : Z) : result (list Z) :=
  palette_index <-?
    (if x mod 2 =? 0 then
       v <-? index_bytes row_data (x / 2) ;; Ok (Z.land (Z.shiftr v 4) 15)
     else
       v <-? index_bytes row_data (x / 2) ;; Ok (Z.land v 15)) ;;
  '(r, g, b, a) <-? index_list palette palette_index ;;
  Ok [r; g; b; a].

(** The body of the loop over the rows. *)
Definition row_body (palette : list ConvertStartBmp.color) (width : Z)
  : list Z -> Z -> io (list Z) :=
  fun pixels (y : Z) =>
    row_data <- f_read (row_size width) ;;
    lift (ConvertStartBmp.decode_row palette row_data width pixels).

(** The palette entry the nibble of pixel [x] selects. *)
Definition pixel_color (bmp : list byte) (start : nat) (x : Z)
  : ConvertStartBmp.color :=
  nth (Z.to_nat (nibble (pixel_byte bmp start x) x)) (palette bmp)
    (0, 0, 0, 0).

(** [read_bmp_4bit] from the palette on, and from the pixel data on. *)
Definition decode_rows (bmp : list byte)
    (palette : list ConvertStartBmp.color) : io (Z * Z * list Z) :=
  f_seek (pixel_offset bmp) ;;;
  pixels <- for_io (range_down (height bmp - 1) (-1))
              (row_body palette (width bmp)) [] ;;
  ret (width bmp, height bmp, pixels).

Definition after_header (bmp : list byte) : io (Z * Z * list Z) :=
  f_seek (14 + dib_size bmp) ;;;
  palette <- repeat_io 16 ConvertStartBmp.read_palette_entry [] ;;
  decode_rows bmp palette.

End BmpView.

Module RustView.

Import Ascii String Text.

(** One value of the array, and one line of sixteen values or fewer. *)
Definition literal (b : Z) : string := ("0x" ++ format_02x b)%string.

Definition data_line (chunk : list Z) : string :=
  (("    " ++ String.concat ", " (map literal chunk)) ++ "," ++ nl)%string.

(** The pixels cut in runs of sixteen. *)
Definition chunks (pixels : list Z) : list (list Z) :=
  map (fun k => firstn 16 (skipn (16 * k) pixels))
    (seq 0 ((List.length pixels + 15) / 16)).

(** The lines of the array. *)
Definition data_text (pixels : list Z) : string :=
  String.concat "" (map data_line (chunks pixels)).

(** What comes before the lines, in each script. *)
Definition icon_prelude (icon_name : string) (n : nat) : string :=
  ("// Auto-generated from " ++ icon_name ++ ".ico" ++ nl
   ++ "pub const " ++ upper icon_name ++ "_WIDTH: usize = 32;" ++ nl
   ++ "pub const " ++ upper icon_name ++ "_HEIGHT: usize = 32;" ++ nl
   ++ "pub const " ++ upper icon_name ++ "_DATA: [u8; "
   ++ str_int (Z.of_nat n) ++ "] = [" ++ nl)%string.

Definition logo_prelude (width height : Z) (n : nat) : string :=
  ("// Auto-generated from start16.bmp" ++ nl
   ++ "pub const WINDOWS_LOGO_WIDTH: usize = " ++ str_int width ++ ";" ++ nl
   ++ "pub const WINDOWS_LOGO_HEIGHT: usize = " ++ str_int height ++ ";" ++ nl
   ++ "pub const WINDOWS_LOGO_DATA: [u8; "
   ++ str_int (Z.of_nat n) ++ "] = [" ++ nl)%string.

(** A reader of the lines: every "0x" followed by two hexadecimal digits
    is a value, everything else is skipped. *)
Definition hex_value (c : ascii) : option Z :=
  let n := Z.of_nat (nat_of_ascii c) in
  if (48 <=? n) && (n <=? 57) then Some (n - 48)
  else if (97 <=? n) && (n <=? 102) then Some (n - 87)
  else None.

Fixpoint read_data (s : string) : list Z :=
  match s with
  | EmptyString => []
  | String c rest =>
      match rest with
      | String x (String h (String l rest')) =>
          if (Ascii.eqb c "0" && Ascii.eqb x "x")%bool then
            match hex_value h, hex_value l with
            | Some a, Some b => (16 * a + b) :: read_data rest'
            | _, _ => read_data rest
            end
          else read_data rest
      | _ => read_data rest
      end
  end.

(** A string without a line feed. *)
Fixpoint one_line (s : string) : bool :=
  match s with
  | EmptyString => true
  | String c rest => negb (Ascii.eqb c (ascii_of_nat 10)) && one_line rest
  end.

(** What follows the first line feed. *)
Fixpoint drop_line (s : string) : string :=
  match s with
  | EmptyString => EmptyString
  | String c rest =>
      if Ascii.eqb c (ascii_of_nat 10) then rest else drop_line rest
  end.

(** A reader of a generated file: the four lines of the heading are
    passed over, the values of what follows are read. *)
Definition read_code (code : string) : list Z :=
  read_data (drop_line (drop_line (drop_line (drop_line code)))).

(** What one icon adds to the text [main] writes. *)
Definition piece (files : string -> option (list byte))
    (icon : string * string) : string :=
  match files (snd icon) with
  | None => ""
  | Some ico =>
      match ConvertIcons.convert_icon ico with
      | Ok (pixels, _) =>
          (ConvertIcons.generate_rust_code (fst icon) pixels ++ nl)%string
      | Raise _ => ""
      end
  end.

Definition banner : string :=
  ("// Auto-generated desktop icon data from Windows XP .ico files"
   ++ nl ++ nl)%string.

End RustView.

(** * Properties *)

Import ConvertIcons ConvertStartBmp.

(** ** Bytes and reads *)

Section Bytes.

Lemma byte_val_range (b : byte) : 0 <= byte_val b < 256.
Proof.
  unfold byte_val. pose proof (Byte.to_N_bounded b) as H.
  split; [apply N2Z.is_nonneg|]. lia.
Qed.

Lemma le_unsigned_nonneg (bs : list byte) : 0 <= le_unsigned bs.
Proof.
  induction bs as [|b bs IH]; cbn [le_unsigned]; [lia|].
  pose proof (byte_val_range b). lia.
Qed.

Lemma le_unsigned_bound (bs : list byte) :
  le_unsigned bs < 256 ^ Z.of_nat (length bs).
Proof.
  induction bs as [|b bs IH].
  - simpl. lia.
  - cbn [length le_unsigned]. rewrite Nat2Z.inj_succ, Z.pow_succ_r by lia.
    pose proof (byte_val_range b). lia.
Qed.

Lemma chunk_length (buf : list byte) (pos n : nat) :
  (pos + n <= length buf)%nat -> length (chunk buf pos n) = n.
Proof.
  intros H. unfold chunk. rewrite length_firstn, length_skipn. lia.
Qed.

Lemma chunk_short (buf : list byte) (pos n : nat) :
  (0 < n)%nat -> (length buf < pos + n)%nat ->
  (length (chunk buf pos n) < n)%nat.
Proof.
  intros Hn H. unfold chunk. rewrite length_firstn, length_skipn. lia.
Qed.

Lemma uint_at_nonneg (buf : list byte) (pos n : nat) : 0 <= uint_at buf pos n.
Proof. apply le_unsigned_nonneg. Qed.

End Bytes.

(** ** The file monad *)

Section Reads.

Context {A : Type}.
Variable buf : list byte.

(** A fixed-width read that fits returns the value at the position and
    moves on by its width. *)
Lemma read_unpack_ok (n : Z) (m : nat) (k : Z -> io A) (pos : nat) :
  m = Z.to_nat n -> 0 <= n -> (pos + m <= length buf)%nat ->
  (bs <- f_read n ;; v <- lift (unpack_uint m bs) ;; k v) buf pos
  = k (uint_at buf pos m) buf (pos + m)%nat.
Proof.
  intros -> Hn Hfit. unfold bind at 1, f_read.
  destruct (Z.ltb_spec n (-1)); [lia|].
  destruct (Z.eqb_spec n (-1)); [lia|].
  fold (chunk buf pos (Z.to_nat n)).
  unfold bind, unpack_uint.
  rewrite (chunk_length _ _ _ Hfit), Nat.eqb_refl. reflexivity.
Qed.

(** A fixed-width read that would pass the end of the file raises. *)
Lemma read_unpack_short (n : Z) (m : nat) (k : Z -> io A) (pos : nat) :
  m = Z.to_nat n -> 0 < n -> (length buf < pos + m)%nat ->
  fst ((bs <- f_read n ;; v <- lift (unpack_uint m bs) ;; k v) buf pos)
  = Raise TruncatedInput.
Proof.
  intros -> Hn Hshort. unfold bind at 1, f_read.
  destruct (Z.ltb_spec n (-1)); [lia|].
  destruct (Z.eqb_spec n (-1)); [lia|].
  fold (chunk buf pos (Z.to_nat n)).
  unfold bind, unpack_uint.
  assert (length (chunk buf pos (Z.to_nat n)) < Z.to_nat n)%nat as Hlen
    by (apply chunk_short; lia).
  destruct (Nat.eqb_spec (length (chunk buf pos (Z.to_nat n))) (Z.to_nat n));
    [lia|reflexivity].
Qed.

End Reads.

(** ** The icon directory *)

Section Directory.

Import IcoView.
Variable ico : list byte.

Ltac read_fits :=
  first [ rewrite (read_unpack_ok ico 1 1%nat) by (reflexivity || lia)
        | rewrite (read_unpack_ok ico 2 2%nat) by (reflexivity || lia)
        | rewrite (read_unpack_ok ico 4 4%nat) by (reflexivity || lia) ].

Ltac read_or_raise :=
  match goal with
  | |- fst (bind (f_read ?n) _ ico ?p) = Raise TruncatedInput =>
      destruct (Nat.le_gt_cases (p + Z.to_nat n) (length ico));
      [ read_fits
      | apply (read_unpack_short ico n (Z.to_nat n)); (reflexivity || lia) ]
  end.

(** On sixteen bytes of file, one turn of the loop is [keep_best] on the
    descriptor found there. *)
Lemma read_dir_entry_ok (best : option entry) (pos : nat) :
  (pos + 16 <= length ico)%nat ->
  read_dir_entry best ico pos
  = (Ok (keep_best best (descriptor_at ico pos)), (pos + 16)%nat).
Proof.
  intros Hfit. unfold read_dir_entry, unpack_B, unpack_H, unpack_I.
  do 8 read_fits. unfold ret, keep_best, is_32x32b, descriptor_at, normalise.
  cbn [width height bit_count bytes_in_res image_offset].
  rewrite <- !Nat.add_assoc. cbn [Nat.add]. reflexivity.
Qed.

(** With fewer than sixteen bytes left, the turn raises on the first field
    that does not fit. *)
Lemma read_dir_entry_short (best : option entry) (pos : nat) :
  (length ico < pos + 16)%nat ->
  fst (read_dir_entry best ico pos) = Raise TruncatedInput.
Proof.
  intros Hshort. unfold read_dir_entry, unpack_B, unpack_H, unpack_I.
  do 8 read_or_raise. cbn [Z.to_nat Pos.to_nat Pos.iter_op Nat.add] in *.
  lia.
Qed.

Lemma descriptors_from_succ (pos n : nat) :
  descriptors_from ico pos (S n)
  = descriptor_at ico pos :: descriptors_from ico (pos + 16) n.
Proof.
  unfold descriptors_from. cbn [seq map]. f_equal.
  - f_equal. lia.
  - rewrite <- seq_shift, map_map. apply map_ext. intros i. f_equal. lia.
Qed.

Lemma descriptors_from_length (pos n : nat) :
  length (descriptors_from ico pos n) = n.
Proof. unfold descriptors_from. now rewrite length_map, length_seq. Qed.

(** The whole loop over a complete directory is a left fold of
    [keep_best]. *)
Lemma directory_loop_ok (n : nat) : forall (best : option entry) (pos : nat),
  (pos + 16 * n <= length ico)%nat ->
  repeat_io n read_dir_entry best ico pos
  = (Ok (fold_left keep_best (descriptors_from ico pos n) best),
     (pos + 16 * n)%nat).
Proof.
  induction n as [|n IH]; intros best pos Hfit.
  - cbn. unfold ret. f_equal. lia.
  - cbn [repeat_io]. unfold bind.
    rewrite read_dir_entry_ok by lia.
    rewrite IH by lia. rewrite descriptors_from_succ. cbn [fold_left].
    f_equal. lia.
Qed.

(** The loop over a directory that the file cuts short raises. *)
Lemma directory_loop_short (n : nat) : forall (best : option entry) (pos : nat),
  (pos <= length ico < pos + 16 * n)%nat ->
  fst (repeat_io n read_dir_entry best ico pos) = Raise TruncatedInput.
Proof.
  induction n as [|n IH]; intros best pos Hshort; [lia|].
  cbn [repeat_io]. unfold bind.
  destruct (Nat.le_gt_cases (pos + 16) (length ico)) as [Hfit|Hcut].
  - rewrite read_dir_entry_ok by exact Hfit. apply IH. lia.
  - pose proof (read_dir_entry_short best pos Hcut) as Hr.
    destruct (read_dir_entry best ico pos) as [[b|e] pos']; cbn in Hr |- *;
      congruence.
Qed.

(** The header, when the file has its six bytes. *)
Lemma parse_ico_header :
  (6 <= length ico)%nat ->
  parse_ico_body ico 0%nat
  = if negb (reserved ico =? 0) || negb (type_field ico =? 1)
    then (Raise InvalidContainer, 6%nat)
    else
      (best_entry <- repeat_io (Z.to_nat (count ico)) read_dir_entry None ;;
       match best_entry with
       | None => raise NoMatchingEntry
       | Some (offset, bit_count, size) =>
           f_seek offset ;;;
           image_data <- f_read size ;;
           ret (image_data, bit_count)
       end) ico 6%nat.
Proof.
  intros Hfit. unfold parse_ico_body, unpack_H.
  do 3 read_fits. cbn [Nat.add]. unfold reserved, type_field, count.
  destruct (negb (uint_at ico 0 2 =? 0) || negb (uint_at ico 2 2 =? 1));
    reflexivity.
Qed.

(** A header that does not fit in the file. *)
Lemma parse_ico_no_header :
  (length ico < 6)%nat -> parse_ico ico = Raise TruncatedInput.
Proof.
  intros Hshort. unfold parse_ico, with_open, parse_ico_body, unpack_H.
  do 3 read_or_raise.
  cbn [Z.to_nat Pos.to_nat Pos.iter_op Nat.add] in *. lia.
Qed.

End Directory.

(** ** The selection rule *)

Section Selection.

Import IcoView.

Lemma is_32x32b_spec (d : descriptor) : reflect (is_32x32 d) (is_32x32b d).
Proof.
  unfold is_32x32, is_32x32b.
  destruct (Z.eqb_spec (width d) 32), (Z.eqb_spec (height d) 32);
    constructor; tauto.
Qed.

Lemma nth_error_snoc (seen : list descriptor) (d d' : descriptor) (j : nat) :
  nth_error (seen ++ [d]) j = Some d' ->
  ((j < length seen)%nat /\ nth_error seen j = Some d')
  \/ (j = length seen /\ d' = d).
Proof.
  intros H. destruct (Nat.lt_ge_cases j (length seen)) as [Hlt|Hge].
  - left. rewrite nth_error_app1 in H by exact Hlt. auto.
  - right. rewrite nth_error_app2 in H by exact Hge.
    destruct (j - length seen)%nat as [|k] eqn:E; cbn in H.
    + split; [lia|congruence].
    + destruct k; discriminate.
Qed.

Lemma nth_error_last (seen : list descriptor) (d : descriptor) :
  nth_error (seen ++ [d]) (length seen) = Some d.
Proof. rewrite nth_error_app2, Nat.sub_diag by lia. reflexivity. Qed.

(** One turn of the loop keeps the invariant. *)
Lemma keep_best_step (seen : list descriptor) (best : option entry)
    (d : descriptor) :
  best_so_far seen best -> best_so_far (seen ++ [d]) (keep_best best d).
Proof.
  intros Hinv. unfold keep_best.
  destruct (is_32x32b_spec d) as [Hd|Hd].
  - destruct Hinv as [Hnone | i d0 (Hi & Hd0 & Hmax)].
    + apply (best_some _ (length seen) d). split; [apply nth_error_last|].
      split; [exact Hd|]. intros j d' Hj Hd'.
      apply nth_error_snoc in Hj as [[Hlt Hj] | [-> ->]]; [|lia].
      rewrite Forall_forall in Hnone. exfalso.
      apply (Hnone d'); [eapply nth_error_In; eauto | assumption].
    + assert (i < length seen)%nat as Hlen
        by (apply nth_error_Some; congruence).
      unfold entry_of. destruct (Z.gtb_spec (bit_count d) (bit_count d0)).
      * apply (best_some _ (length seen) d). split; [apply nth_error_last|].
        split; [exact Hd|]. intros j d' Hj Hd'.
        apply nth_error_snoc in Hj as [[Hlt Hj] | [-> ->]]; [|lia].
        destruct (Hmax j d' Hj Hd'). lia.
      * apply (best_some _ i d0). split.
        { rewrite nth_error_app1 by exact Hlen. exact Hi. }
        split; [exact Hd0|]. intros j d' Hj Hd'.
        apply nth_error_snoc in Hj as [[Hlt Hj] | [-> ->]]; [|lia].
        exact (Hmax j d' Hj Hd').
  - destruct Hinv as [Hnone | i d0 (Hi & Hd0 & Hmax)].
    + apply best_none. apply Forall_app. split; [exact Hnone|].
      constructor; [exact Hd|constructor].
    + assert (i < length seen)%nat as Hlen
        by (apply nth_error_Some; congruence).
      apply (best_some _ i d0). split.
      { rewrite nth_error_app1 by exact Hlen. exact Hi. }
      split; [exact Hd0|]. intros j d' Hj Hd'.
      apply nth_error_snoc in Hj as [[Hlt Hj] | [-> ->]]; [|contradiction].
      exact (Hmax j d' Hj Hd').
Qed.

(** So does the whole loop. *)
Lemma keep_best_fold (ds : list descriptor) :
  forall (seen : list descriptor) (best : option entry),
  best_so_far seen best ->
  best_so_far (seen ++ ds) (fold_left keep_best ds best).
Proof.
  induction ds as [|d ds IH]; intros seen best Hinv; cbn [fold_left].
  - now rewrite app_nil_r.
  - replace (seen ++ d :: ds) with ((seen ++ [d]) ++ ds)
      by (now rewrite <- app_assoc).
    apply IH, keep_best_step, Hinv.
Qed.

Lemma keep_best_directory (ds : list descriptor) :
  best_so_far ds (fold_left keep_best ds None).
Proof. apply (keep_best_fold ds [] None). apply best_none. constructor. Qed.

(** Reading the image of the selected entry never raises: a seek past the
    end is accepted and the read returns what there is. *)
Lemma read_image_data (ico : list byte) (d : descriptor) (pos : nat) :
  0 <= image_offset d -> 0 <= bytes_in_res d ->
  fst ((f_seek (image_offset d) ;;;
        image_data <- f_read (bytes_in_res d) ;;
        ret (image_data, bit_count d)) ico pos)
  = Ok (image_data ico d, bit_count d).
Proof.
  intros Hoff Hsize. unfold bind, f_seek, f_read, ret.
  destruct (Z.ltb_spec (image_offset d) 0); [lia|].
  destruct (Z.ltb_spec (bytes_in_res d) (-1)); [lia|].
  destruct (Z.eqb_spec (bytes_in_res d) (-1)); [lia|].
  reflexivity.
Qed.

Lemma descriptor_at_nonneg (ico : list byte) (pos : nat) :
  0 <= image_offset (descriptor_at ico pos)
  /\ 0 <= bytes_in_res (descriptor_at ico pos).
Proof. split; apply uint_at_nonneg. Qed.

Lemma directory_nonneg (ico : list byte) (i : nat) (d : descriptor) :
  nth_error (directory ico) i = Some d ->
  0 <= image_offset d /\ 0 <= bytes_in_res d.
Proof.
  intros H. apply nth_error_In in H. unfold directory, descriptors_from in H.
  apply in_map_iff in H as (k & <- & _). apply descriptor_at_nonneg.
Qed.

(** [parse_ico] on a file with a valid header and a complete directory. *)
Lemma parse_ico_complete (ico : list byte) :
  valid_header ico -> complete_directory ico ->
  (Forall (fun d => ~ is_32x32 d) (directory ico)
   /\ parse_ico ico = Raise NoMatchingEntry)
  \/ (exists i d, chosen (directory ico) i d
      /\ parse_ico ico = Ok (image_data ico d, bit_count d)).
Proof.
  intros [Hres Htype] Hdir. unfold complete_directory in Hdir.
  assert (parse_ico ico
          = fst (match fold_left keep_best (directory ico) None with
                 | None => raise NoMatchingEntry
                 | Some (offset, bit_count, size) =>
                     f_seek offset ;;;
                     image_data <- f_read size ;;
                     ret (image_data, bit_count)
                 end ico (6 + 16 * Z.to_nat (count ico))%nat)) as ->.
  { unfold parse_ico, with_open. rewrite parse_ico_header by lia.
    rewrite Hres, Htype, !Z.eqb_refl. cbn [negb orb]. unfold bind at 1.
    rewrite directory_loop_ok by exact Hdir. reflexivity. }
  destruct (keep_best_directory (directory ico)) as [Hnone | i d Hch].
  - left. split; [exact Hnone|reflexivity].
  - right. exists i, d. split; [exact Hch|].
    destruct Hch as (Hi & _). apply directory_nonneg in Hi as [Hoff Hsize].
    unfold entry_of. apply read_image_data; assumption.
Qed.

End Selection.

(** ** Loops that extend a list

    Every pixel loop of the two scripts has the shape
    [for x in xs: pixels.extend(f(x))]. *)

Section Collect.

Context {X : Type}.

Lemma for_each_ext {S : Type} (body body' : S -> X -> result S)
    (xs : list X) :
  (forall s x, In x xs -> body s x = body' s x) ->
  forall s, for_each xs body s = for_each xs body' s.
Proof.
  induction xs as [|x xs IH]; intros Heq s; cbn [for_each]; [reflexivity|].
  rewrite Heq by (left; reflexivity).
  destruct (body' s x) as [s'|e]; cbn [rbind]; [|reflexivity].
  apply IH. intros s0 x0 Hin. apply Heq. right. exact Hin.
Qed.

Lemma for_each_extend_init (f : X -> result (list Z)) (xs : list X) :
  forall init,
  for_each xs (extend_with f) init
  = (v <-? collect f xs ;; Ok (init ++ v)).
Proof.
  unfold collect. induction xs as [|x xs IH]; intros init; cbn [for_each].
  - cbn. now rewrite app_nil_r.
  - unfold extend_with at 1 3. destruct (f x) as [v|e]; cbn [rbind app];
      [|reflexivity].
    rewrite (IH (init ++ v)), (IH v).
    destruct (for_each xs (extend_with f) []) as [w|e]; cbn [rbind];
      [|reflexivity].
    now rewrite app_assoc.
Qed.

Lemma collect_cons (f : X -> result (list Z)) (x : X) (xs : list X) :
  collect f (x :: xs)
  = (v <-? f x ;; w <-? collect f xs ;; Ok (v ++ w)).
Proof.
  unfold collect at 1. cbn [for_each]. unfold extend_with at 1.
  destruct (f x) as [v|e]; cbn [rbind app]; [|reflexivity].
  apply for_each_extend_init.
Qed.

Lemma flat_map_ext_on (g g' : X -> list Z) (xs : list X) :
  (forall x, In x xs -> g x = g' x) -> flat_map g xs = flat_map g' xs.
Proof.
  induction xs as [|x xs IH]; intros Heq; cbn [flat_map]; [reflexivity|].
  rewrite Heq by (left; reflexivity). f_equal.
  apply IH. intros x0 Hin. apply Heq. right. exact Hin.
Qed.

(** When every item decodes, the loop returns the pieces in order. *)
Lemma collect_all_ok (f : X -> result (list Z)) (g : X -> list Z)
    (xs : list X) :
  (forall x, In x xs -> f x = Ok (g x)) -> collect f xs = Ok (flat_map g xs).
Proof.
  induction xs as [|x xs IH]; intros Hok; [reflexivity|].
  rewrite collect_cons, Hok by (left; reflexivity). cbn [rbind].
  rewrite IH by (intros x0 Hin; apply Hok; right; exact Hin). reflexivity.
Qed.

(** When the loop returns, every item decoded. *)
Lemma collect_ok_inv (f : X -> result (list Z)) (xs : list X) :
  forall out, collect f xs = Ok out ->
  exists g, (forall x, In x xs -> f x = Ok (g x)) /\ out = flat_map g xs.
Proof.
  induction xs as [|x xs IH]; intros out H.
  - exists (fun _ => []). split; [intros x []|]. cbn in H |- *. congruence.
  - rewrite collect_cons in H. destruct (f x) as [v|e] eqn:Ex; [|discriminate].
    cbn [rbind] in H.
    destruct (collect f xs) as [w|e] eqn:Exs; [|discriminate].
    cbn [rbind] in H. injection H as <-.
    destruct (IH w eq_refl) as (g & Hg & ->).
    exists (fun x0 => match f x0 with Ok v0 => v0 | Raise _ => g x0 end).
    split.
    + intros x0 [<-|Hin].
      * now rewrite Ex.
      * destruct (f x0) eqn:E0; [reflexivity|].
        rewrite (Hg x0 Hin) in E0. discriminate.
    + cbn [flat_map]. rewrite Ex. f_equal.
      apply flat_map_ext_on. intros x0 Hin. now rewrite (Hg x0 Hin).
Qed.

End Collect.

Lemma flat_map_map {X Y : Type} (f : Y -> list Z) (g : X -> Y)
    (xs : list X) :
  flat_map f (map g xs) = flat_map (fun x => f (g x)) xs.
Proof.
  induction xs as [|x xs IH]; cbn [map flat_map]; [reflexivity|].
  now rewrite IH.
Qed.

Lemma in_range (n x : Z) : In x (range n) <-> 0 <= x < n.
Proof.
  unfold range. rewrite in_map_iff. split.
  - intros (k & <- & Hk). apply in_seq in Hk. lia.
  - intros Hx. exists (Z.to_nat x). split; [lia|]. apply in_seq. lia.
Qed.

Lemma in_range_down (start stop y : Z) :
  In y (range_down start stop) <-> stop < y <= start.
Proof.
  unfold range_down. rewrite in_map_iff. split.
  - intros (k & <- & Hk). apply in_seq in Hk. lia.
  - intros Hy. exists (Z.to_nat (start - y)). split; [lia|]. apply in_seq. lia.
Qed.

Lemma range_length (n : Z) : length (range n) = Z.to_nat n.
Proof. unfold range. now rewrite length_map, length_seq. Qed.

Lemma range_down_length (start stop : Z) :
  length (range_down start stop) = Z.to_nat (start - stop).
Proof. unfold range_down. now rewrite length_map, length_seq. Qed.

Lemma index_bytes_ok (bs : list byte) (i : Z) :
  0 <= i < Z.of_nat (length bs) -> index_bytes bs i = Ok (byte_at bs i).
Proof.
  intros Hi. unfold index_bytes, byte_at, byte_nth.
  destruct (nth_error bs (Z.to_nat i)) as [b|] eqn:E.
  - reflexivity.
  - apply nth_error_None in E. lia.
Qed.

Lemma index_bytes_inv (bs : list byte) (i v : Z) :
  0 <= i -> index_bytes bs i = Ok v ->
  i < Z.of_nat (length bs) /\ v = byte_at bs i.
Proof.
  intros Hi H. unfold index_bytes, byte_at, byte_nth in *.
  destruct (nth_error bs (Z.to_nat i)) as [b|] eqn:E; [|discriminate].
  split; [|congruence].
  assert (Z.to_nat i < length bs)%nat by (apply nth_error_Some; congruence).
  lia.
Qed.

(** ** The icon image decoder *)

Section IconImage.

Import DibView.
Variable bmp_data : list byte.

Lemma unpack_uint_chunk (pos n : nat) :
  (pos + n <= length bmp_data)%nat ->
  unpack_uint n (chunk bmp_data pos n) = Ok (uint_at bmp_data pos n).
Proof.
  intros Hfit. unfold unpack_uint.
  now rewrite chunk_length, Nat.eqb_refl by exact Hfit.
Qed.

Lemma unpack_uint_chunk_short (pos n : nat) :
  (0 < n)%nat -> (length bmp_data < pos + n)%nat ->
  unpack_uint n (chunk bmp_data pos n) = Raise TruncatedInput.
Proof.
  intros Hn Hshort. unfold unpack_uint.
  pose proof (chunk_short bmp_data pos n Hn Hshort).
  destruct (Nat.eqb_spec (length (chunk bmp_data pos n)) n); [lia|reflexivity].
Qed.

Lemma placeholder_loop :
  for_each (range (32 * 32))
    (fun pixels (i : Z) => Ok (pixels ++ [128; 128; 192; 255])) []
  = Ok placeholder.
Proof. vm_compute. reflexivity. Qed.

(** The two nested pixel loops, as loops that extend [pixels]. *)
Lemma pixel_loops :
  for_each (range_down 31 (-1)) (fun pixels y =>
    for_each (range 32) (fun pixels x =>
      b <-? index_bytes bmp_data (40 + (y * 32 + x) * 4) ;;
      g <-? index_bytes bmp_data (40 + (y * 32 + x) * 4 + 1) ;;
      r <-? index_bytes bmp_data (40 + (y * 32 + x) * 4 + 2) ;;
      a <-? index_bytes bmp_data (40 + (y * 32 + x) * 4 + 3) ;;
      Ok (pixels ++ [r; g; b; a])) pixels) []
  = collect (fun y => collect (pixel_at bmp_data y) (range 32))
      (range_down 31 (-1)).
Proof.
  unfold collect at 1. apply for_each_ext. intros pixels y _.
  unfold extend_with at 1. rewrite <- for_each_extend_init.
  apply for_each_ext. intros px x _. unfold extend_with, pixel_at, pixel_start.
  cbv zeta.
  destruct (index_bytes bmp_data (40 + (y * 32 + x) * 4)); [|reflexivity].
  destruct (index_bytes bmp_data (40 + (y * 32 + x) * 4 + 1)); [|reflexivity].
  destruct (index_bytes bmp_data (40 + (y * 32 + x) * 4 + 2)); [|reflexivity].
  destruct (index_bytes bmp_data (40 + (y * 32 + x) * 4 + 3)); reflexivity.
Qed.

(** [bmp_to_rgba] once the twelve bytes of geometry are there. *)
Lemma bmp_to_rgba_unfold (bit_count : Z) :
  (12 <= length bmp_data)%nat ->
  bmp_to_rgba bmp_data bit_count
  = if negb (width bmp_data =? 32) || negb (actual_height bmp_data =? 32)
    then Raise DimensionMismatch
    else if bit_count =? 32 then
      pixels <-? collect (fun y => collect (pixel_at bmp_data y) (range 32))
                   (range_down 31 (-1)) ;;
      Ok (pixels, [])
    else Ok (placeholder, [Warning_placeholder bit_count]).
Proof.
  intros Hlen. unfold bmp_to_rgba, unpack_I, unpack_i, slice.
  cbn [Nat.sub]. cbv zeta. fold (chunk bmp_data 0 4) (chunk bmp_data 4 4)
    (chunk bmp_data 8 4).
  rewrite !unpack_uint_chunk by lia. cbn [rbind].
  fold (int32_at bmp_data 4) (int32_at bmp_data 8).
  fold (width bmp_data) (height bmp_data). fold (actual_height bmp_data).
  rewrite pixel_loops, placeholder_loop. reflexivity.
Qed.

(** Without them, unpacking the header raises. *)
Lemma bmp_to_rgba_no_header (bit_count : Z) :
  (length bmp_data < 12)%nat ->
  bmp_to_rgba bmp_data bit_count = Raise TruncatedInput.
Proof.
  intros Hlen. unfold bmp_to_rgba, unpack_I, unpack_i, slice.
  cbn [Nat.sub]. fold (chunk bmp_data 0 4) (chunk bmp_data 4 4)
    (chunk bmp_data 8 4).
  destruct (Nat.le_gt_cases (0 + 4) (length bmp_data)) as [H0|H0];
    [rewrite unpack_uint_chunk by exact H0
    |rewrite unpack_uint_chunk_short by lia; reflexivity].
  destruct (Nat.le_gt_cases (4 + 4) (length bmp_data)) as [H1|H1];
    [rewrite (unpack_uint_chunk 4) by exact H1
    |rewrite (unpack_uint_chunk_short 4) by lia; reflexivity].
  rewrite (unpack_uint_chunk_short 8) by lia. reflexivity.
Qed.

Lemma pixel_at_ok (y x : Z) :
  0 <= y < 32 -> 0 <= x < 32 -> (4136 <= length bmp_data)%nat ->
  pixel_at bmp_data y x = Ok (rgba_at bmp_data y x).
Proof.
  intros Hy Hx Hlen. unfold pixel_at, rgba_at, pixel_start.
  rewrite !index_bytes_ok by lia. reflexivity.
Qed.

Lemma pixel_at_length (y x : Z) (v : list Z) :
  pixel_at bmp_data y x = Ok v -> length v = 4%nat.
Proof.
  unfold pixel_at. intros H.
  destruct (index_bytes bmp_data (pixel_start y x)); [|discriminate].
  destruct (index_bytes bmp_data (pixel_start y x + 1)); [|discriminate].
  destruct (index_bytes bmp_data (pixel_start y x + 2)); [|discriminate].
  destruct (index_bytes bmp_data (pixel_start y x + 3)); [|discriminate].
  cbn in H. injection H as <-. reflexivity.
Qed.

(** The pixel loops on a complete 32-bit image: the stored rows from the
    last to the first. *)
Lemma pixel_rows_ok :
  (4136 <= length bmp_data)%nat ->
  collect (fun y => collect (pixel_at bmp_data y) (range 32))
    (range_down 31 (-1))
  = Ok (flat_map (rgba_row bmp_data) (range_down 31 (-1))).
Proof.
  intros Hlen. apply collect_all_ok. intros y Hy. apply in_range_down in Hy.
  apply collect_all_ok. intros x Hx. apply in_range in Hx.
  apply pixel_at_ok; lia.
Qed.

(** Whatever the pixel loops return has 32 * 32 * 4 values. *)
Lemma pixel_rows_length (pixels : list Z) :
  collect (fun y => collect (pixel_at bmp_data y) (range 32))
    (range_down 31 (-1)) = Ok pixels ->
  length pixels = 4096%nat.
Proof.
  intros H. apply collect_ok_inv in H as (rows & Hrows & ->).
  rewrite (flat_map_constant_length (c := 128)).
  - now rewrite range_down_length.
  - intros y Hy. specialize (Hrows y Hy).
    apply collect_ok_inv in Hrows as (px & Hpx & ->).
    rewrite (flat_map_constant_length (c := 4)).
    + now rewrite range_length.
    + intros x Hx. eapply pixel_at_length. apply Hpx, Hx.
Qed.

(** Whatever [bmp_to_rgba] returns, the geometry check was passed. *)
Lemma bmp_to_rgba_ok_geometry (bit_count : Z) (out : list Z * list event) :
  bmp_to_rgba bmp_data bit_count = Ok out ->
  (12 <= length bmp_data)%nat
  /\ width bmp_data = 32 /\ actual_height bmp_data = 32.
Proof.
  intros H. destruct (Nat.le_gt_cases 12 (length bmp_data)) as [Hhdr|Hhdr].
  - split; [exact Hhdr|]. rewrite bmp_to_rgba_unfold in H by exact Hhdr.
    destruct (Z.eqb_spec (width bmp_data) 32);
      destruct (Z.eqb_spec (actual_height bmp_data) 32);
      cbn [negb orb] in H; try discriminate H. now split.
  - rewrite bmp_to_rgba_no_header in H by exact Hhdr. discriminate H.
Qed.

Lemma placeholder_length : length placeholder = 4096%nat.
Proof. reflexivity. Qed.

End IconImage.

(** ** What the icon image decoder can raise *)

Section IconImageErrors.

Import DibView.

(** A loop that extends a list returns, or raises what an item raised. *)
Lemma collect_cases {X : Type} (f : X -> result (list Z)) (e : exn)
    (xs : list X) :
  (forall x, In x xs -> f x = Raise e \/ exists v, f x = Ok v) ->
  collect f xs = Raise e \/ exists out, collect f xs = Ok out.
Proof.
  induction xs as [|x xs IH]; intros Hall; [right; now exists []|].
  rewrite collect_cons.
  destruct (Hall x (or_introl eq_refl)) as [Hx|[v Hx]]; rewrite Hx;
    cbn [rbind]; [left; reflexivity|].
  destruct IH as [Hxs|[w Hxs]]; [intros x0 Hin; apply Hall; now right| |];
    rewrite Hxs; cbn [rbind]; [left; reflexivity|right; now eexists].
Qed.

Lemma index_bytes_cases (buf : list byte) (i : Z) :
  index_bytes buf i = Raise IndexError
  \/ exists v, index_bytes buf i = Ok v /\ 0 <= v < 256.
Proof.
  unfold index_bytes. destruct (nth_error buf (Z.to_nat i)) as [b|];
    [right|left; reflexivity].
  exists (byte_val b). split; [reflexivity|apply byte_val_range].
Qed.

Lemma pixel_at_cases (bmp_data : list byte) (y x : Z) :
  pixel_at bmp_data y x = Raise IndexError
  \/ exists v, pixel_at bmp_data y x = Ok v
       /\ Forall (fun c => 0 <= c < 256) v.
Proof.
  unfold pixel_at.
  destruct (index_bytes_cases bmp_data (pixel_start y x))
    as [->|(b & -> & Hb)]; [left; reflexivity|].
  destruct (index_bytes_cases bmp_data (pixel_start y x + 1))
    as [->|(g & -> & Hg)]; [left; reflexivity|].
  destruct (index_bytes_cases bmp_data (pixel_start y x + 2))
    as [->|(r & -> & Hr)]; [left; reflexivity|].
  destruct (index_bytes_cases bmp_data (pixel_start y x + 3))
    as [->|(a & -> & Ha)]; [left; reflexivity|].
  right. eexists. split; [reflexivity|]. repeat constructor; lia.
Qed.

Lemma pixel_row_cases (bmp_data : list byte) (y : Z) :
  collect (pixel_at bmp_data y) (range 32) = Raise IndexError
  \/ exists v, collect (pixel_at bmp_data y) (range 32) = Ok v.
Proof.
  destruct (collect (pixel_at bmp_data y) (range 32)) as [v|e] eqn:E;
    [right; now exists v|left].
  assert (forall xs, collect (pixel_at bmp_data y) xs = Raise e ->
            e = IndexError) as Hgen.
  { induction xs as [|x xs IH]; intros H; [discriminate H|].
    rewrite collect_cons in H.
    destruct (pixel_at_cases bmp_data y x) as [Hx|(v & Hx & _)];
      rewrite Hx in H; cbn [rbind] in H; [congruence|].
    destruct (collect (pixel_at bmp_data y) xs) as [w|e'];
      cbn [rbind] in H; [discriminate H|].
    apply IH. congruence. }
  now rewrite (Hgen _ E).
Qed.

(** The two pixel loops return or raise [IndexError]. *)
Lemma pixel_rows_cases (bmp_data : list byte) :
  collect (fun y => collect (pixel_at bmp_data y) (range 32))
    (range_down 31 (-1)) = Raise IndexError
  \/ exists out,
       collect (fun y => collect (pixel_at bmp_data y) (range 32))
         (range_down 31 (-1)) = Ok out.
Proof. apply collect_cases. intros y _. apply pixel_row_cases. Qed.

(** An image that passes the geometry check is not refused for its
    geometry: on the 32-bit path the decoder returns or runs out of
    bytes, on the other it returns the placeholder. *)
Lemma bmp_to_rgba_good_geometry (bmp_data : list byte) (bit_count : Z) :
  (12 <= length bmp_data)%nat ->
  width bmp_data = 32 -> actual_height bmp_data = 32 ->
  bmp_to_rgba bmp_data bit_count = Raise IndexError
  \/ exists out, bmp_to_rgba bmp_data bit_count = Ok out.
Proof.
  intros Hlen Hw Hh. rewrite bmp_to_rgba_unfold by exact Hlen.
  rewrite Hw, Hh. cbn [Z.eqb Pos.eqb negb orb].
  destruct (bit_count =? 32); [|right; now eexists].
  destruct (pixel_rows_cases bmp_data) as [Hr|[out Hr]]; rewrite Hr;
    cbn [rbind]; [left; reflexivity|right; now eexists].
Qed.

End IconImageErrors.

(** ** Steps of a computation on a file *)

Section Steps.

Context {A B : Type}.
Variable buf : list byte.

Lemma bind_f_read (n : Z) (k : list byte -> io A) (pos : nat) :
  0 <= n ->
  (bs <- f_read n ;; k bs) buf pos
  = k (chunk buf pos (Z.to_nat n)) buf
      (pos + length (chunk buf pos (Z.to_nat n)))%nat.
Proof.
  intros Hn. unfold bind, f_read.
  destruct (Z.ltb_spec n (-1)); [lia|].
  destruct (Z.eqb_spec n (-1)); [lia|]. reflexivity.
Qed.

(** A read either is refused for its length or returns some bytes and
    moves on by as many. *)
Lemma f_read_cases (n : Z) (pos : nat) :
  (n < -1 /\ f_read n buf pos = (Raise ReadLengthError, pos))
  \/ (-1 <= n /\ exists data,
        f_read n buf pos = (Ok data, (pos + length data)%nat)).
Proof.
  unfold f_read. destruct (Z.ltb_spec n (-1)); [left; auto|right].
  split; [lia|]. eexists. reflexivity.
Qed.

Lemma bind_f_seek (offset : Z) (k : io A) (pos : nat) :
  0 <= offset -> (f_seek offset ;;; k) buf pos = k buf (Z.to_nat offset).
Proof.
  intros Hoff. unfold bind, f_seek.
  destruct (Z.ltb_spec offset 0); [lia|reflexivity].
Qed.

Lemma bind_lift_ok (r : result B) (v : B) (k : B -> io A) (pos : nat) :
  r = Ok v -> (x <- lift r ;; k x) buf pos = k v buf pos.
Proof. intros ->. reflexivity. Qed.

Lemma bind_lift_inv (r : result B) (k : B -> io A) (pos : nat) (out : A) :
  fst ((x <- lift r ;; k x) buf pos) = Ok out ->
  exists v, r = Ok v /\ fst (k v buf pos) = Ok out.
Proof.
  destruct r as [v|e]; cbn; intros H; [|discriminate]. now exists v.
Qed.

Lemma bind_raise (m : io B) (k : B -> io A) (pos : nat) (e : exn) :
  fst (m buf pos) = Raise e -> fst (bind m k buf pos) = Raise e.
Proof.
  unfold bind. destruct (m buf pos) as [[v|e'] pos']; cbn; congruence.
Qed.

Lemma bind_ok (m : io B) (k : B -> io A) (pos pos' : nat) (v : B) :
  m buf pos = (Ok v, pos') -> bind m k buf pos = k v buf pos'.
Proof. unfold bind. now intros ->. Qed.

Lemma bind_ret_inv (m : io B) (f : B -> A) (pos : nat) (out : A) :
  fst ((x <- m ;; ret (f x)) buf pos) = Ok out ->
  exists v, fst (m buf pos) = Ok v /\ out = f v.
Proof.
  unfold bind, ret. destruct (m buf pos) as [[v|e] pos']; cbn; intros H;
    [|discriminate].
  exists v. split; congruence.
Qed.

Lemma bind_assoc {C : Type} (m : io C) (f : C -> io B) (g : B -> io A)
    (pos : nat) :
  (y <- (x <- m ;; f x) ;; g y) buf pos
  = (x <- m ;; y <- f x ;; g y) buf pos.
Proof.
  unfold bind. destruct (m buf pos) as [[v|e] pos']; reflexivity.
Qed.

End Steps.

Lemma chunk_length_inv (buf : list byte) (pos n : nat) :
  (0 < n)%nat -> length (chunk buf pos n) = n -> (pos + n <= length buf)%nat.
Proof.
  intros Hn H. unfold chunk in H. rewrite length_firstn, length_skipn in H.
  lia.
Qed.

Lemma unpack_uint_inv (n : nat) (bs : list byte) (v : Z) :
  unpack_uint n bs = Ok v -> length bs = n /\ v = le_unsigned bs.
Proof.
  unfold unpack_uint. destruct (Nat.eqb_spec (length bs) n); [|discriminate].
  intros H. split; congruence.
Qed.

Lemma unpack_i_inv (bs : list byte) (v : Z) :
  unpack_i bs = Ok v -> length bs = 4%nat /\ v = to_signed32 (le_unsigned bs).
Proof.
  unfold unpack_i. destruct (unpack_uint 4 bs) as [u|e] eqn:E; [|discriminate].
  apply unpack_uint_inv in E as [Hlen ->]. cbn. intros H. split; congruence.
Qed.

Lemma unpack_i_chunk (buf : list byte) (pos : nat) :
  (pos + 4 <= length buf)%nat ->
  unpack_i (chunk buf pos 4) = Ok (int32_at buf pos).
Proof.
  intros Hfit. unfold unpack_i. now rewrite unpack_uint_chunk by exact Hfit.
Qed.

Lemma nth_error_chunk (buf : list byte) (pos n i : nat) :
  (i < n)%nat -> nth_error (chunk buf pos n) i = nth_error buf (pos + i).
Proof.
  intros Hi. unfold chunk. rewrite nth_error_firstn, nth_error_skipn.
  destruct (Nat.ltb_spec i n); [reflexivity|lia].
Qed.

Lemma byte_nth_chunk (buf : list byte) (pos n i : nat) :
  (i < n)%nat -> byte_nth (chunk buf pos n) i = byte_nth buf (pos + i).
Proof. intros Hi. unfold byte_nth. now rewrite nth_error_chunk. Qed.

(** A slice of what a read returned is a piece of the file. *)
Lemma slice_chunk (buf : list byte) (pos n lo hi : nat) :
  (lo <= hi <= n)%nat ->
  slice (chunk buf pos n) lo hi = chunk buf (pos + lo) (hi - lo).
Proof.
  intros H. unfold slice, chunk.
  rewrite skipn_firstn_comm, firstn_firstn, skipn_skipn.
  f_equal; [lia|]. f_equal. lia.
Qed.

(** ** The start-button bitmap: header and palette *)

Section BmpPrelude.

Import BmpView.
Variable bmp : list byte.

(** With the magic and thirty bytes of file, the header is read and the
    bit count decides. *)
Lemma read_bmp_header :
  has_header bmp ->
  read_bmp_4bit_body bmp 0%nat
  = if negb (bit_count bmp =? 4) then (Raise UnsupportedDepth, 30%nat)
    else after_header bmp bmp 30%nat.
Proof.
  intros [Hmagic Hlen]. unfold read_bmp_4bit_body.
  rewrite bind_f_read by lia. rewrite chunk_length by (cbn; lia).
  rewrite !slice_chunk by (cbn; lia). cbn [Z.to_nat Pos.to_nat Pos.iter_op
    Nat.add Nat.sub]. fold (magic_ok bmp). rewrite Hmagic. cbn [negb].
  unfold unpack_I, unpack_H.
  rewrite (bind_lift_ok bmp _ _ _ _ (unpack_uint_chunk bmp 10 4 ltac:(lia))).
  rewrite bind_f_read by lia. rewrite chunk_length by (cbn; lia).
  rewrite (bind_lift_ok bmp _ _ _ _ (unpack_uint_chunk bmp 14 4 ltac:(lia))).
  rewrite bind_f_read by lia. rewrite chunk_length by (cbn; lia).
  rewrite (bind_lift_ok bmp _ _ _ _ (unpack_i_chunk bmp 18 ltac:(lia))).
  rewrite bind_f_read by lia. rewrite chunk_length by (cbn; lia).
  rewrite (bind_lift_ok bmp _ _ _ _ (unpack_i_chunk bmp 22 ltac:(lia))).
  rewrite bind_f_read by lia. rewrite chunk_length by (cbn; lia).
  rewrite bind_f_read by lia. rewrite chunk_length by (cbn; lia).
  rewrite (bind_lift_ok bmp _ _ _ _ (unpack_uint_chunk bmp 28 2 ltac:(lia))).
  fold (bit_count bmp). destruct (negb (bit_count bmp =? 4)); reflexivity.
Qed.

(** On four bytes of file, one turn of the palette loop appends the entry
    found there. *)
Lemma read_palette_entry_ok (palette : list color) (pos : nat) :
  (pos + 4 <= length bmp)%nat ->
  read_palette_entry palette bmp pos
  = (Ok (palette ++ [palette_entry_at bmp pos]), (pos + 4)%nat).
Proof.
  intros Hfit. unfold read_palette_entry.
  rewrite bind_f_read by lia. change (Z.to_nat 4) with 4%nat.
  pose proof (chunk_length bmp pos 4 Hfit) as Hlen.
  pose proof (byte_nth_chunk bmp pos 4 0 ltac:(lia)) as H0.
  pose proof (byte_nth_chunk bmp pos 4 1 ltac:(lia)) as H1.
  pose proof (byte_nth_chunk bmp pos 4 2 ltac:(lia)) as H2.
  rewrite Hlen.
  destruct (chunk bmp pos 4) as [|b0 [|b1 [|b2 [|b3 [|b4 rest]]]]];
    try discriminate Hlen.
  cbn in H0, H1, H2. unfold palette_entry_at, palette_color.
  rewrite Nat.add_0_r in H0. rewrite <- H0, <- H1, <- H2.
  cbn [unpack_BBBB lift]. unfold bind at 1, ret at 1.
  destruct ((byte_val b2 >? 200) && (byte_val b0 >? 200)
            && (byte_val b1 <? 50)); reflexivity.
Qed.

Lemma read_palette_entry_short (palette : list color) (pos : nat) :
  (length bmp < pos + 4)%nat ->
  fst (read_palette_entry palette bmp pos) = Raise TruncatedInput.
Proof.
  intros Hshort. unfold read_palette_entry.
  rewrite bind_f_read by lia. change (Z.to_nat 4) with 4%nat.
  pose proof (chunk_short bmp pos 4 ltac:(lia) Hshort) as Hlen.
  destruct (chunk bmp pos 4) as [|b0 [|b1 [|b2 [|b3 [|b4 rest]]]]];
    try reflexivity; cbn in Hlen; lia.
Qed.

Lemma palette_from_succ (pos n : nat) :
  palette_from bmp pos (S n)
  = palette_entry_at bmp pos :: palette_from bmp (pos + 4) n.
Proof.
  unfold palette_from. cbn [seq map]. f_equal.
  - f_equal. lia.
  - rewrite <- seq_shift, map_map. apply map_ext. intros i. f_equal. lia.
Qed.

Lemma palette_loop_ok (n : nat) : forall (palette : list color) (pos : nat),
  (pos + 4 * n <= length bmp)%nat ->
  repeat_io n read_palette_entry palette bmp pos
  = (Ok (palette ++ palette_from bmp pos n), (pos + 4 * n)%nat).
Proof.
  induction n as [|n IH]; intros palette pos Hfit.
  - cbn. unfold ret. rewrite app_nil_r. f_equal. lia.
  - cbn [repeat_io].
    rewrite (bind_ok bmp _ _ _ _ _ (read_palette_entry_ok palette pos
                                      ltac:(lia))).
    rewrite IH by lia. rewrite palette_from_succ, <- app_assoc. cbn [app].
    f_equal. lia.
Qed.

Lemma palette_loop_short (n : nat) : forall (palette : list color) (pos : nat),
  (0 < n)%nat -> (length bmp < pos + 4 * n)%nat ->
  fst (repeat_io n read_palette_entry palette bmp pos) = Raise TruncatedInput.
Proof.
  induction n as [|n IH]; intros palette pos Hn Hshort; [lia|].
  cbn [repeat_io].
  destruct (Nat.le_gt_cases (pos + 4) (length bmp)) as [Hfit|Hcut].
  - rewrite (bind_ok bmp _ _ _ _ _ (read_palette_entry_ok palette pos Hfit)).
    apply IH; lia.
  - apply bind_raise, read_palette_entry_short, Hcut.
Qed.

Lemma palette_length : length (palette bmp) = 16%nat.
Proof. unfold palette, palette_from. now rewrite length_map, length_seq. Qed.

(** With the palette inside the file, what is left is the pixel data. *)
Lemma after_header_ok (pos : nat) :
  (palette_start bmp + 64 <= length bmp)%nat ->
  after_header bmp bmp pos
  = decode_rows bmp (palette bmp) bmp (palette_start bmp + 64)%nat.
Proof.
  intros Hfit. unfold after_header.
  rewrite bind_f_seek by (pose proof (uint_at_nonneg bmp 14 4);
                          unfold dib_size; lia).
  fold (palette_start bmp).
  rewrite (bind_ok bmp _ _ _ _ _ (palette_loop_ok 16 [] (palette_start bmp)
                                    ltac:(lia))).
  reflexivity.
Qed.

Lemma after_header_short (pos : nat) :
  (length bmp < palette_start bmp + 64)%nat ->
  fst (after_header bmp bmp pos) = Raise TruncatedInput.
Proof.
  intros Hshort. unfold after_header.
  rewrite bind_f_seek by (pose proof (uint_at_nonneg bmp 14 4);
                          unfold dib_size; lia).
  fold (palette_start bmp). apply bind_raise, palette_loop_short; lia.
Qed.

(** The whole of [read_bmp_4bit] on a file that has its palette. *)
Lemma read_bmp_4bit_palette :
  has_palette bmp ->
  read_bmp_4bit bmp
  = fst (decode_rows bmp (palette bmp) bmp (palette_start bmp + 64)%nat).
Proof.
  intros (Hhdr & Hbits & Hpal). unfold read_bmp_4bit, with_open.
  rewrite read_bmp_header by exact Hhdr. rewrite Hbits. cbn [Z.eqb negb].
  rewrite Pos.eqb_refl. cbn [negb].
  now rewrite after_header_ok by exact Hpal.
Qed.

(** A file on which [read_bmp_4bit] returns has its header. *)
Lemma read_bmp_4bit_has_header (out : Z * Z * list Z) :
  read_bmp_4bit bmp = Ok out -> has_header bmp.
Proof.
  unfold read_bmp_4bit, with_open, read_bmp_4bit_body. intros H.
  rewrite bind_f_read in H by lia.
  rewrite !slice_chunk in H by (cbn; lia).
  cbn [Z.to_nat Pos.to_nat Pos.iter_op Nat.add Nat.sub] in H.
  fold (magic_ok bmp) in H.
  destruct (magic_ok bmp) eqn:Hmagic; [|discriminate H]. cbn [negb] in H.
  apply bind_lift_inv in H as (v0 & Hv0 & H).
  apply unpack_uint_inv in Hv0 as [L0 _].
  apply chunk_length_inv in L0; [|lia].
  rewrite chunk_length in H by lia.
  rewrite bind_f_read in H by lia.
  apply bind_lift_inv in H as (v1 & Hv1 & H).
  apply unpack_uint_inv in Hv1 as [L1 _].
  apply chunk_length_inv in L1; [|cbn; lia]. rewrite chunk_length in H by lia.
  rewrite bind_f_read in H by lia.
  apply bind_lift_inv in H as (v2 & Hv2 & H).
  apply unpack_i_inv in Hv2 as [L2 _].
  apply chunk_length_inv in L2; [|cbn; lia]. rewrite chunk_length in H by lia.
  rewrite bind_f_read in H by lia.
  apply bind_lift_inv in H as (v3 & Hv3 & H).
  apply unpack_i_inv in Hv3 as [L3 _].
  apply chunk_length_inv in L3; [|cbn; lia]. rewrite chunk_length in H by lia.
  rewrite bind_f_read in H by lia.
  destruct (Nat.le_gt_cases 28 (length bmp)) as [L4|L4].
  - rewrite (chunk_length bmp _ (Z.to_nat 2)) in H by (cbn; lia).
    rewrite bind_f_read in H by lia.
    apply bind_lift_inv in H as (v5 & Hv5 & H).
    apply unpack_uint_inv in Hv5 as [L5 _].
    apply chunk_length_inv in L5; [|cbn; lia].
    split; [exact Hmagic|]. cbn in L5. lia.
  - exfalso. rewrite bind_f_read in H by lia.
    apply bind_lift_inv in H as (v5 & Hv5 & H).
    apply unpack_uint_inv in Hv5 as [L5 _].
    apply chunk_length_inv in L5; [|cbn; lia].
    unfold chunk in L5. rewrite length_firstn, length_skipn in L5.
    cbn in L0, L1, L2, L3, L5. lia.
Qed.

(** It has its palette too, and returns what the row loop returns. *)
Lemma read_bmp_4bit_inv (out : Z * Z * list Z) :
  read_bmp_4bit bmp = Ok out ->
  has_palette bmp
  /\ fst (decode_rows bmp (palette bmp) bmp (palette_start bmp + 64)%nat)
     = Ok out.
Proof.
  intros H. pose proof (read_bmp_4bit_has_header out H) as Hhdr.
  unfold read_bmp_4bit, with_open in H.
  rewrite read_bmp_header in H by exact Hhdr.
  destruct (Z.eqb_spec (bit_count bmp) 4) as [Hbits|Hbits]; cbn [negb] in H;
    [|discriminate H].
  destruct (Nat.le_gt_cases (palette_start bmp + 64) (length bmp))
    as [Hpal|Hpal].
  - rewrite after_header_ok in H by exact Hpal.
    split; [repeat split; (apply Hhdr || assumption)|exact H].
  - rewrite after_header_short in H by exact Hpal. discriminate H.
Qed.

End BmpPrelude.

(** ** The start-button bitmap: rows and pixels *)

Section BmpRows.

Import BmpView.
Variable bmp : list byte.
Variable palette : list color.

Lemma byte_nth_range (buf : list byte) (i : nat) : 0 <= byte_nth buf i < 256.
Proof.
  unfold byte_nth. destruct (nth_error buf i); [apply byte_val_range|lia].
Qed.

(** The two masks of the decoder are the two nibbles of the byte. *)
Lemma high_nibble (v : Z) :
  0 <= v < 256 -> Z.land (Z.shiftr v 4) 15 = v / 16.
Proof.
  intros Hv. rewrite Z.shiftr_div_pow2 by lia.
  change 15 with (Z.ones 4). rewrite Z.land_ones by lia.
  change (2 ^ 4) with 16. apply Z.mod_small.
  split; [apply Z.div_pos; lia | apply Z.div_lt_upper_bound; lia].
Qed.

Lemma low_nibble (v : Z) : Z.land v 15 = v mod 16.
Proof. change 15 with (Z.ones 4). now rewrite Z.land_ones by lia. Qed.

Lemma nibble_range (v x : Z) : 0 <= v < 256 -> 0 <= nibble v x < 16.
Proof.
  intros Hv. unfold nibble. destruct (x mod 2 =? 0).
  - split; [apply Z.div_pos; lia | apply Z.div_lt_upper_bound; lia].
  - apply Z.mod_pos_bound. lia.
Qed.

(** The inner loop extends [pixels] with one [row_pixel] per column. *)
Lemma decode_row_collect (row_data : list byte) (width : Z)
    (pixels : list Z) :
  decode_row palette row_data width pixels
  = (v <-? collect (row_pixel palette row_data) (range width) ;;
     Ok (pixels ++ v)).
Proof.
  unfold decode_row. rewrite <- for_each_extend_init.
  apply for_each_ext. intros px x _. unfold extend_with, row_pixel. cbv zeta.
  destruct (x mod 2 =? 0);
    (destruct (index_bytes row_data (x / 2)) as [v|e]; cbn [rbind];
     [|reflexivity]).
  - destruct (index_list palette (Z.land (Z.shiftr v 4) 15))
      as [[[[r g] b] a]|e]; reflexivity.
  - destruct (index_list palette (Z.land v 15)) as [[[[r g] b] a]|e];
      reflexivity.
Qed.

(** What one column decodes to, when it decodes. *)
Lemma row_pixel_inv (row_data : list byte) (x : Z) (v : list Z) :
  0 <= x -> row_pixel palette row_data x = Ok v ->
  (Z.to_nat (x / 2) < length row_data)%nat
  /\ v = rgba_of
           (nth (Z.to_nat (nibble (byte_nth row_data (Z.to_nat (x / 2))) x))
              palette (0, 0, 0, 0)).
Proof.
  intros Hx H. unfold row_pixel in H.
  assert (0 <= x / 2) as Hx2 by (apply Z.div_pos; lia).
  destruct (index_bytes row_data (x / 2)) as [b|e] eqn:Eb.
  2:{ destruct (x mod 2 =? 0); discriminate H. }
  apply index_bytes_inv in Eb as [Hlt ->]; [|exact Hx2].
  unfold byte_at in H. split; [lia|].
  pose proof (byte_nth_range row_data (Z.to_nat (x / 2))) as Hb.
  unfold nibble.
  destruct (x mod 2 =? 0); cbn [rbind] in H;
    [rewrite high_nibble in H by exact Hb | rewrite low_nibble in H];
    unfold index_list in H;
    match type of H with
    | context [nth_error palette ?i] =>
        destruct (nth_error palette i) as [[[[r g] b] a]|] eqn:E;
        [|discriminate H];
        rewrite (nth_error_nth _ _ _ E)
    end;
    cbn in H |- *; congruence.
Qed.

Section Loop.

Variable width : Z.

(** The rows of an image with no column: nothing is decoded. *)
Lemma rows_loop_no_column (ys : list Z) :
  width <= 0 ->
  forall (pos : nat) (pixels out : list Z),
  fst (for_io ys (row_body palette width) pixels bmp pos) = Ok out ->
  out = pixels.
Proof.
  intros Hw. induction ys as [|y ys IH]; intros pos pixels out H.
  - cbn in H. congruence.
  - cbn [for_io] in H. unfold row_body at 1 in H. rewrite bind_assoc in H.
    destruct (f_read_cases bmp (row_size width) pos)
      as [[_ E]|[_ [data E]]].
    + rewrite (bind_raise bmp _ _ _ ReadLengthError) in H;
        [discriminate H | now rewrite E].
    + rewrite (bind_ok bmp _ _ _ _ _ E) in H.
      unfold decode_row, range in H.
      replace (Z.to_nat width) with 0%nat in H by lia.
      cbn [seq map for_each lift] in H.
      unfold bind at 1, ret at 1 in H. apply IH in H. exact H.
Qed.

(** The rows of an image with columns: each turn decodes the next
    [row_size] bytes of the file, and every byte a pixel lies in is
    inside the file. *)
Lemma rows_loop_inv (ys : list Z) :
  0 < width ->
  forall (pos : nat) (pixels out : list Z),
  fst (for_io ys (row_body palette width) pixels bmp pos) = Ok out ->
  (forall (k : nat) (x : Z), (k < length ys)%nat -> 0 <= x < width ->
     (pos + k * Z.to_nat (row_size width) + Z.to_nat (x / 2)
      < length bmp)%nat)
  /\ out = pixels
           ++ flat_map (fun k =>
                flat_map
                  (pixel_rgba palette bmp
                     (pos + k * Z.to_nat (row_size width)))
                  (range width))
                (seq 0 (length ys)).
Proof.
  intros Hw. set (rs := Z.to_nat (row_size width)).
  assert (0 <= row_size width) as Hrs
    by (unfold row_size; apply Z.mul_nonneg_nonneg; [|lia];
        apply Z.div_pos; lia).
  induction ys as [|y ys IH]; intros pos pixels out H.
  - cbn in H. split; [cbn; lia|]. cbn. rewrite app_nil_r. congruence.
  - cbn [for_io] in H. unfold row_body at 1 in H. rewrite bind_assoc in H.
    rewrite bind_f_read in H by exact Hrs. fold rs in H.
    set (row_data := chunk bmp pos rs) in *.
    apply bind_lift_inv in H as (pixels1 & Hrow & H).
    rewrite decode_row_collect in Hrow.
    destruct (collect (row_pixel palette row_data) (range width))
      as [v|e] eqn:Ev; [|discriminate Hrow].
    cbn [rbind] in Hrow. injection Hrow as <-.
    apply collect_ok_inv in Ev as (g & Hg & ->).
    assert (length row_data <= rs)%nat as Hdata_le
      by (unfold row_data, chunk; apply firstn_le_length).
    assert (length row_data <= length bmp - pos)%nat as Hdata_file
      by (unfold row_data, chunk; rewrite length_firstn, length_skipn; lia).
    assert (forall x, 0 <= x < width ->
              (pos + Z.to_nat (x / 2) < length bmp)%nat
              /\ g x = pixel_rgba palette bmp pos x) as Hfirst.
    { intros x Hx. specialize (Hg x (proj2 (in_range width x) Hx)).
      apply row_pixel_inv in Hg as [Hlt ->]; [|lia]. split; [lia|].
      unfold pixel_rgba, pixel_byte, row_data.
      now rewrite byte_nth_chunk by lia. }
    apply IH in H as [Hvalid ->]. clear IH.
    assert (length ys = 0%nat \/ length row_data = rs) as Hnext.
    { destruct ys as [|y' ys']; [left; reflexivity|right].
      specialize (Hvalid 0%nat 0 ltac:(cbn; lia) ltac:(lia)).
      unfold row_data, chunk in *.
      rewrite length_firstn, length_skipn in *. cbn in Hvalid. lia. }
    split.
    + intros [|k] x Hk Hx.
      * destruct (Hfirst x Hx). lia.
      * cbn [length] in Hk. specialize (Hvalid k x ltac:(lia) Hx).
        destruct Hnext as [Hnil|Hfull]; [lia|]. rewrite Hfull in Hvalid. lia.
    + rewrite <- app_assoc. f_equal. cbn [length seq flat_map]. f_equal.
      * rewrite Nat.mul_0_l, Nat.add_0_r. apply flat_map_ext_on.
        intros x Hx. apply in_range in Hx. now destruct (Hfirst x Hx).
      * destruct Hnext as [Hnil|Hfull]; [now rewrite Hnil|].
        rewrite Hfull, <- seq_shift, flat_map_map. apply flat_map_ext_on.
        intros k _. f_equal. f_equal. lia.
Qed.

End Loop.

End BmpRows.

Section BmpReturns.

Import BmpView.
Variable bmp : list byte.

Lemma flat_map_all_nil {X : Type} (f : X -> list Z) (xs : list X) :
  (forall x, f x = []) -> flat_map f xs = [].
Proof.
  intros Hf. induction xs as [|x xs IH]; cbn [flat_map]; [reflexivity|].
  now rewrite Hf, IH.
Qed.

Lemma range_down_rows (height : Z) :
  length (range_down (height - 1) (-1)) = Z.to_nat height.
Proof. rewrite range_down_length. f_equal. lia. Qed.

Lemma pixel_offset_nonneg : 0 <= pixel_offset bmp.
Proof. apply uint_at_nonneg. Qed.

(** What [read_bmp_4bit] returns, whenever it returns: the declared width
    and height, and the stored rows in the order they are stored. *)
Lemma read_bmp_4bit_returns (out : Z * Z * list Z) :
  read_bmp_4bit bmp = Ok out ->
  has_palette bmp
  /\ out = (width bmp, height bmp, stored_rows bmp)
  /\ (forall (k : nat) (x : Z),
        (k < Z.to_nat (height bmp))%nat -> 0 <= x < width bmp ->
        (row_start bmp k + Z.to_nat (x / 2) < length bmp)%nat).
Proof.
  intros H. apply read_bmp_4bit_inv in H as [Hpal H].
  split; [exact Hpal|]. unfold decode_rows in H.
  rewrite bind_f_seek in H by apply pixel_offset_nonneg.
  apply bind_ret_inv in H as (pixels & Hloop & ->).
  destruct (Z.lt_ge_cases 0 (width bmp)) as [Hw|Hw].
  - apply rows_loop_inv in Hloop as [Hvalid ->]; [|exact Hw].
    rewrite range_down_rows in *. split; [reflexivity|].
    intros k x Hk Hx. apply Hvalid; assumption.
  - apply rows_loop_no_column in Hloop as ->; [|exact Hw]. split.
    + unfold stored_rows. rewrite flat_map_all_nil; [reflexivity|].
      intros k. unfold stored_row, range.
      now replace (Z.to_nat (width bmp)) with 0%nat by lia.
    + intros k x _ Hx. lia.
Qed.

(** The length of what is returned. *)
Lemma pixel_rgba_length (palette : list color) (start : nat) (x : Z) :
  length (pixel_rgba palette bmp start x) = 4%nat.
Proof.
  unfold pixel_rgba, rgba_of.
  now destruct (nth _ palette (0, 0, 0, 0)) as [[[r g] b] a].
Qed.

Lemma stored_rows_length :
  length (stored_rows bmp)
  = (Z.to_nat (height bmp) * (Z.to_nat (width bmp) * 4))%nat.
Proof.
  unfold stored_rows.
  rewrite (flat_map_constant_length (c := (Z.to_nat (width bmp) * 4)%nat)).
  - now rewrite length_seq.
  - intros k _. unfold stored_row.
    rewrite (flat_map_constant_length (c := 4%nat)).
    + now rewrite range_length.
    + intros x _. apply pixel_rgba_length.
Qed.

Lemma row_size_ceil (w : Z) : row_size w = ceil_div (w * 4) 32 * 4.
Proof.
  unfold row_size, ceil_div. f_equal.
  pose proof (Z.div_mod (w * 4 + 31) 32 ltac:(lia)).
  pose proof (Z.mod_pos_bound (w * 4 + 31) 32 ltac:(lia)).
  pose proof (Z.div_mod (- (w * 4)) 32 ltac:(lia)).
  pose proof (Z.mod_pos_bound (- (w * 4)) 32 ltac:(lia)).
  lia.
Qed.

(** The pixel bytes of a row come before its padding. *)
Lemma pixel_bytes_in_row (w x : Z) :
  0 <= x < w -> 0 <= x / 2 < (w + 1) / 2 /\ (w + 1) / 2 <= row_size w.
Proof.
  intros Hx. unfold row_size.
  pose proof (Z.div_mod x 2 ltac:(lia)).
  pose proof (Z.mod_pos_bound x 2 ltac:(lia)).
  pose proof (Z.div_mod (w + 1) 2 ltac:(lia)).
  pose proof (Z.mod_pos_bound (w + 1) 2 ltac:(lia)).
  pose proof (Z.div_mod (w * 4 + 31) 32 ltac:(lia)).
  pose proof (Z.mod_pos_bound (w * 4 + 31) 32 ltac:(lia)).
  lia.
Qed.

End BmpReturns.

(** * The claims *)

(** ** The icon directory *)

Section IcoClaims.

Import IcoView.

(** The choice of the selection rule is unique. *)
Lemma chosen_unique (ds : list descriptor) (i j : nat) (d e : descriptor) :
  chosen ds i d -> chosen ds j e -> i = j /\ d = e.
Proof.
  intros (Hi & Hd & Hmax) (Hj & He & Hmax').
  destruct (Hmax j e Hj He) as [Hle Hlt].
  destruct (Hmax' i d Hi Hd) as [Hle' Hlt'].
  assert (i = j) as -> by lia. split; [reflexivity|congruence].
Qed.

(** C1. On an icon file with a valid header and its whole directory,
    [parse_ico] returns the image and the bit count of the descriptor the
    selection rule chooses: a descriptor of (normalised) size 32x32 such
    that no 32x32 descriptor has a higher bit count and every 32x32
    descriptor before it has a strictly lower one; without any 32x32
    descriptor it raises [NoMatchingEntry]. *)
Theorem parse_ico_selects_highest_bit_count (ico : list byte) :
  valid_header ico -> complete_directory ico ->
  (Forall (fun d => ~ is_32x32 d) (directory ico) ->
   parse_ico ico = Raise NoMatchingEntry)
  /\ (Exists is_32x32 (directory ico) ->
      exists i d, chosen (directory ico) i d
        /\ parse_ico ico = Ok (image_data ico d, bit_count d)).
Proof.
  intros Hvalid Hdir.
  destruct (parse_ico_complete ico Hvalid Hdir)
    as [[Hnone Hraise] | (i & d & Hch & Hok)]; split.
  - intros _. exact Hraise.
  - intros Hsome. exfalso. apply Exists_exists in Hsome as (d & Hin & Hd).
    rewrite Forall_forall in Hnone. exact (Hnone d Hin Hd).
  - intros Hnone. exfalso. destruct Hch as (Hi & Hd & _).
    rewrite Forall_forall in Hnone.
    exact (Hnone d (nth_error_In _ _ Hi) Hd).
  - intros _. exists i, d. split; assumption.
Qed.

Lemma parse_ico_selects_highest_bit_count_witness :
  exists i d, chosen (directory sample_ico) i d
    /\ parse_ico sample_ico = Ok (image_data sample_ico d, bit_count d).
Proof.
  refine (proj2 (parse_ico_selects_highest_bit_count sample_ico _ _) _).
  - split; reflexivity.
  - unfold complete_directory. apply Nat.leb_le. vm_compute. reflexivity.
  - vm_compute. apply Exists_cons_tl, Exists_cons_hd. split; reflexivity.
Defined.

(** The sample directory holds 32x32 images at 8, 32, 32 and 24 bits: the
    first of the two 32-bit images is returned. *)
Example parse_ico_sample : parse_ico sample_ico = Ok ([x02], 32).
Proof. vm_compute. reflexivity. Qed.

Example parse_ico_sample_no32 :
  parse_ico sample_ico_no32 = Raise NoMatchingEntry.
Proof. vm_compute. reflexivity. Qed.

(** C8. On a file that has the six bytes of a header, when the header is
    not that of an icon file ([reserved <> 0] or [type <> 1]), [parse_ico]
    raises [InvalidContainer] with the file position at 6, that is before
    any byte of a directory entry is read, and the conversion of the file
    raises the same: no pixel is produced. *)
Theorem parse_ico_invalid_header (ico : list byte) :
  (6 <= length ico)%nat -> ~ valid_header ico ->
  parse_ico_body ico 0%nat = (Raise InvalidContainer, 6%nat)
  /\ parse_ico ico = Raise InvalidContainer
  /\ convert_icon ico = Raise InvalidContainer.
Proof.
  intros Hlen Hbad.
  assert (parse_ico_body ico 0%nat = (Raise InvalidContainer, 6%nat)) as H.
  { rewrite parse_ico_header by exact Hlen.
    destruct (Z.eqb_spec (reserved ico) 0) as [Hr|Hr];
      destruct (Z.eqb_spec (type_field ico) 1) as [Ht|Ht];
      try reflexivity.
    exfalso. apply Hbad. split; assumption. }
  split; [exact H|].
  assert (parse_ico ico = Raise InvalidContainer) as Hp
    by (unfold parse_ico, with_open; now rewrite H).
  split; [exact Hp|]. unfold convert_icon. now rewrite Hp.
Qed.

Lemma parse_ico_invalid_header_witness :
  parse_ico_body sample_bad_header 0%nat = (Raise InvalidContainer, 6%nat)
  /\ parse_ico sample_bad_header = Raise InvalidContainer
  /\ convert_icon sample_bad_header = Raise InvalidContainer.
Proof.
  apply (parse_ico_invalid_header sample_bad_header).
  - apply Nat.leb_le. vm_compute. reflexivity.
  - intros [Hr _]. vm_compute in Hr. discriminate Hr.
Defined.

(** C9, as stated, fails: a buffer with [reserved = 1] and [count = 3]
    that stops after the header is shorter than [6 + 3 * 16] bytes, and
    [parse_ico] raises [InvalidContainer] on it, not [TruncatedInput]. *)
Lemma truncated_invalid_header_counterexample :
  count sample_bad_header = 3
  /\ (length sample_bad_header < 6 + 3 * 16)%nat
  /\ parse_ico sample_bad_header = Raise InvalidContainer
  /\ parse_ico sample_bad_header <> Raise TruncatedInput.
Proof.
  split; [reflexivity|]. split; [apply Nat.ltb_lt; reflexivity|].
  split; [vm_compute; reflexivity|]. vm_compute. discriminate.
Qed.

(** C9, amended. On a buffer too short for the header itself, or whose
    header is valid and which is shorter than the [6 + 16 * count] bytes
    of header and directory, [parse_ico] raises [TruncatedInput]; and any
    fixed-width read that would pass the end of the buffer raises
    [TruncatedInput] instead of returning a value. *)
Theorem parse_ico_truncated (ico : list byte) :
  (length ico < 6)%nat
  \/ (valid_header ico
      /\ (length ico < 6 + 16 * Z.to_nat (count ico))%nat) ->
  parse_ico ico = Raise TruncatedInput
  /\ forall (n : Z) (m pos : nat),
       m = Z.to_nat n -> 0 < n -> (length ico < pos + m)%nat ->
       fst ((bs <- f_read n ;; v <- lift (unpack_uint m bs) ;; ret v) ico pos)
       = Raise TruncatedInput.
Proof.
  intros H. split.
  - destruct H as [Hshort | [[Hres Htype] Hshort]].
    + apply parse_ico_no_header, Hshort.
    + destruct (Nat.le_gt_cases 6 (length ico)) as [Hhdr|Hhdr];
        [|apply parse_ico_no_header, Hhdr].
      unfold parse_ico, with_open. rewrite parse_ico_header by exact Hhdr.
      rewrite Hres, Htype, !Z.eqb_refl. cbn [negb orb].
      apply bind_raise, directory_loop_short. lia.
  - intros n m pos Hm Hn Hshort. now apply read_unpack_short.
Qed.

Lemma parse_ico_truncated_witness :
  parse_ico sample_ico_truncated = Raise TruncatedInput.
Proof.
  refine (proj1 (parse_ico_truncated sample_ico_truncated _)).
  right. split; [split; reflexivity|]. apply Nat.ltb_lt. vm_compute.
  reflexivity.
Defined.

End IcoClaims.

(** ** The icon image *)

Section DibClaims.

Import DibView.

(** C6. Once the twelve bytes of geometry are there, [bmp_to_rgba] takes
    the image height to be [|height| / 2] of the height its header
    declares, and raises [DimensionMismatch] exactly when the declared
    width is not 32 or that height is not 32, whatever the bit count: an
    image of width 32 and height 64, 65, -64 or -65 is not refused.
    What the conversion of a file returns is [bmp_to_rgba] on the image
    bytes and the bit count [parse_ico] returned: the width and height
    of the directory entry do not reach it. *)
Theorem bmp_to_rgba_checks_geometry (bmp_data : list byte) (bit_count : Z) :
  (12 <= length bmp_data)%nat ->
  (width bmp_data <> 32 \/ Z.abs (height bmp_data) / 2 <> 32 ->
   bmp_to_rgba bmp_data bit_count = Raise DimensionMismatch)
  /\ (width bmp_data = 32 -> Z.abs (height bmp_data) / 2 = 32 ->
      bmp_to_rgba bmp_data bit_count <> Raise DimensionMismatch
      /\ (bmp_to_rgba bmp_data bit_count = Raise IndexError
          \/ exists out, bmp_to_rgba bmp_data bit_count = Ok out))
  /\ (forall out, bmp_to_rgba bmp_data bit_count = Ok out ->
      width bmp_data = 32 /\ Z.abs (height bmp_data) / 2 = 32)
  /\ (forall ico, parse_ico ico = Ok (bmp_data, bit_count) ->
      convert_icon ico = bmp_to_rgba bmp_data bit_count).
Proof.
  intros Hlen. fold (actual_height bmp_data).
  pose proof (bmp_to_rgba_unfold bmp_data bit_count Hlen) as Hun.
  assert (forall ico, parse_ico ico = Ok (bmp_data, bit_count) ->
            convert_icon ico = bmp_to_rgba bmp_data bit_count) as Hconv
    by (intros ico Hico; unfold convert_icon; now rewrite Hico).
  assert (width bmp_data = 32 -> actual_height bmp_data = 32 ->
          bmp_to_rgba bmp_data bit_count <> Raise DimensionMismatch
          /\ (bmp_to_rgba bmp_data bit_count = Raise IndexError
              \/ exists out, bmp_to_rgba bmp_data bit_count = Ok out))
    as Hgood.
  { intros Hw Hh.
    destruct (bmp_to_rgba_good_geometry bmp_data bit_count Hlen Hw Hh)
      as [Hr|[out Hr]]; (split; [rewrite Hr; discriminate|]);
      [left; exact Hr|right; now exists out]. }
  destruct (Z.eqb_spec (width bmp_data) 32) as [Hw|Hw];
    destruct (Z.eqb_spec (actual_height bmp_data) 32) as [Hh|Hh];
    cbn [negb orb] in Hun.
  - split; [intros [?|?]; contradiction|].
    split; [exact Hgood|]. split; [auto|exact Hconv].
  - split; [intros _; exact Hun|].
    split; [exact Hgood|]. split; [congruence|exact Hconv].
  - split; [intros _; exact Hun|].
    split; [exact Hgood|]. split; [congruence|exact Hconv].
  - split; [intros _; exact Hun|].
    split; [exact Hgood|]. split; [congruence|exact Hconv].
Qed.

Lemma bmp_to_rgba_checks_geometry_witness :
  bmp_to_rgba sample_dib8_16x16 8 = Raise DimensionMismatch
  /\ bmp_to_rgba sample_dib8_top_down 8 <> Raise DimensionMismatch.
Proof.
  split.
  - refine (proj1 (bmp_to_rgba_checks_geometry sample_dib8_16x16 8 _) _).
    + apply Nat.leb_le. vm_compute. reflexivity.
    + left. vm_compute. discriminate.
  - refine (proj1 (proj1 (proj2 (bmp_to_rgba_checks_geometry
                                   sample_dib8_top_down 8 _)) _ _)).
    + apply Nat.leb_le. vm_compute. reflexivity.
    + vm_compute. reflexivity.
    + vm_compute. reflexivity.
Defined.

(** A declared height of -64 is a height of 32 as well: the image is
    decoded, here to the placeholder. *)
Example bmp_to_rgba_negative_height :
  height sample_dib8_top_down = -64
  /\ bmp_to_rgba sample_dib8_top_down 8
     = Ok (placeholder, [Warning_placeholder 8]).
Proof. split; vm_compute; reflexivity. Qed.

(** The 32-bit sample declares a height of 64: the image height is 32. *)
Example actual_height_sample : actual_height sample_dib32 = 32.
Proof. vm_compute. reflexivity. Qed.

(** C7, as stated, fails: the entry selected in [sample_ico8_16x16] has
    bit count 8, and the conversion raises [DimensionMismatch], because
    the geometry is checked before the bit count is looked at. *)
Lemma placeholder_after_geometry_counterexample :
  parse_ico sample_ico8_16x16 = Ok (sample_dib8_16x16, 8)
  /\ 8 <> 32
  /\ convert_icon sample_ico8_16x16 = Raise DimensionMismatch.
Proof.
  split; [vm_compute; reflexivity|]. split; [discriminate|].
  vm_compute. reflexivity.
Qed.

(** C7, amended. On an image that has its twelve bytes of geometry and
    passes the geometry check, any bit count other than 32 makes
    [bmp_to_rgba] return, without looking at the pixel data, 32 * 32
    times the colour (128, 128, 192, 255), and print the warning.  On a
    bitmap file with its header, any bit count other than 4 makes
    [read_bmp_4bit] raise [UnsupportedDepth]. *)
Theorem unsupported_depth_policy :
  (forall (bmp_data : list byte) (bit_count : Z),
     (12 <= length bmp_data)%nat ->
     width bmp_data = 32 -> Z.abs (height bmp_data) / 2 = 32 ->
     bit_count <> 32 ->
     bmp_to_rgba bmp_data bit_count
     = Ok (concat (repeat [128; 128; 192; 255] (32 * 32)),
           [Warning_placeholder bit_count]))
  /\ (forall bmp : list byte,
        BmpView.has_header bmp -> BmpView.bit_count bmp <> 4 ->
        read_bmp_4bit bmp = Raise UnsupportedDepth).
Proof.
  split.
  - intros bmp_data bit_count Hlen Hw Hh Hbits.
    rewrite bmp_to_rgba_unfold by exact Hlen. unfold actual_height.
    rewrite Hw, Hh. cbn [Z.eqb Pos.eqb negb orb].
    destruct (Z.eqb_spec bit_count 32); [contradiction|reflexivity].
  - intros bmp Hhdr Hbits. unfold read_bmp_4bit, with_open.
    rewrite read_bmp_header by exact Hhdr.
    destruct (Z.eqb_spec (BmpView.bit_count bmp) 4);
      [contradiction|reflexivity].
Qed.

Lemma unsupported_depth_policy_witness :
  bmp_to_rgba sample_dib8 8
  = Ok (concat (repeat [128; 128; 192; 255] (32 * 32)),
        [Warning_placeholder 8])
  /\ read_bmp_4bit sample_bmp_8bit = Raise UnsupportedDepth.
Proof.
  split.
  - apply (proj1 unsupported_depth_policy sample_dib8 8).
    + apply Nat.leb_le. vm_compute. reflexivity.
    + vm_compute. reflexivity.
    + vm_compute. reflexivity.
    + discriminate.
  - apply (proj2 unsupported_depth_policy sample_bmp_8bit).
    + split; [vm_compute; reflexivity|]. apply Nat.leb_le. vm_compute.
      reflexivity.
    + vm_compute. discriminate.
Defined.

(** On a complete 32-bit image, the rows come out from the last stored
    to the first, each pixel reordered to red, green, blue, alpha. *)
Lemma bmp_to_rgba_top_down (bmp_data : list byte) :
  (4136 <= length bmp_data)%nat ->
  width bmp_data = 32 -> actual_height bmp_data = 32 ->
  bmp_to_rgba bmp_data 32
  = Ok (flat_map (rgba_row bmp_data) (range_down 31 (-1)), []).
Proof.
  intros Hlen Hw Hh. rewrite bmp_to_rgba_unfold by lia.
  rewrite Hw, Hh. cbn [Z.eqb Pos.eqb negb orb].
  now rewrite pixel_rows_ok by exact Hlen.
Qed.

(** Row 0 of the output is the last stored row. *)
Lemma bmp_to_rgba_first_row (bmp_data : list byte) (pixels : list Z)
    (events : list event) :
  (4136 <= length bmp_data)%nat ->
  bmp_to_rgba bmp_data 32 = Ok (pixels, events) ->
  firstn 128 pixels = rgba_row bmp_data 31.
Proof.
  intros Hlen H.
  destruct (bmp_to_rgba_ok_geometry bmp_data 32 _ H) as (_ & Hw & Hh).
  rewrite bmp_to_rgba_top_down in H by assumption.
  assert (pixels = flat_map (rgba_row bmp_data) (range_down 31 (-1))) as ->
    by congruence.
  change (flat_map (rgba_row bmp_data) (range_down 31 (-1)))
    with (rgba_row bmp_data 31
          ++ flat_map (rgba_row bmp_data) (range_down 30 (-1))).
  assert (length (rgba_row bmp_data 31) = 128%nat) as Hrow by reflexivity.
  rewrite firstn_app, Hrow, Nat.sub_diag, firstn_O, app_nil_r.
  apply firstn_all2. lia.
Qed.

End DibClaims.

(** ** The start-button bitmap *)

Section BmpClaims.

Import BmpView.

(** C5. One turn of the palette loop on the four bytes blue, green, red,
    reserved appends the entry (red, green, blue, alpha), where alpha is 0
    exactly when red > 200, blue > 200 and green < 50, and 255 otherwise:
    (255, 0, 255) gets alpha 0 and (255, 0, 0) gets alpha 255. *)
Theorem palette_color_key (bmp : list byte) (pos : nat)
    (palette : list color) (b g r reserved : byte) :
  chunk bmp pos 4 = [b; g; r; reserved] ->
  exists alpha,
    read_palette_entry palette bmp pos
    = (Ok (palette ++ [(byte_val r, byte_val g, byte_val b, alpha)]),
       (pos + 4)%nat)
    /\ (alpha = 0 <->
        byte_val r > 200 /\ byte_val b > 200 /\ byte_val g < 50)
    /\ (alpha <> 0 -> alpha = 255)
    /\ (byte_val r = 255 -> byte_val g = 0 -> byte_val b = 255 -> alpha = 0)
    /\ (byte_val r = 255 -> byte_val g = 0 -> byte_val b = 0 -> alpha = 255).
Proof.
  intros Hbytes. unfold read_palette_entry.
  rewrite bind_f_read by lia. change (Z.to_nat 4) with 4%nat.
  rewrite Hbytes. cbn [unpack_BBBB lift length]. unfold bind at 1, ret at 1.
  destruct (Z.gtb_spec (byte_val r) 200) as [Hr|Hr];
    destruct (Z.gtb_spec (byte_val b) 200) as [Hb|Hb];
    destruct (Z.ltb_spec (byte_val g) 50) as [Hg|Hg]; cbn [andb];
    (eexists; split; [reflexivity|]);
    repeat split; intros; try discriminate; lia.
Qed.

Lemma palette_color_key_witness :
  exists alpha,
    read_palette_entry [] sample_magenta 0%nat
    = (Ok ([] ++ [(255, 0, 255, alpha)]), 4%nat)
    /\ alpha = 0.
Proof.
  destruct (palette_color_key sample_magenta 0%nat [] xff x00 xff x00
              eq_refl) as (alpha & Hread & _ & _ & Hmagenta & _).
  exists alpha. split; [exact Hread|]. apply Hmagenta; reflexivity.
Defined.

(** C10. On a 4-bit bitmap file that has its header and palette and
    declares a height of 0 or less, [read_bmp_4bit] returns the declared
    width and height with no pixel at all. *)
Theorem read_bmp_4bit_no_rows (bmp : list byte) :
  has_palette bmp -> height bmp <= 0 ->
  read_bmp_4bit bmp = Ok (width bmp, height bmp, []).
Proof.
  intros Hpal Hh.
  rewrite read_bmp_4bit_palette by exact Hpal. unfold decode_rows.
  rewrite bind_f_seek by apply pixel_offset_nonneg.
  unfold range_down.
  replace (Z.to_nat (height bmp - 1 - -1)) with 0%nat by lia.
  reflexivity.
Qed.

Lemma read_bmp_4bit_no_rows_witness :
  read_bmp_4bit sample_bmp_top_down = Ok (3, -2, []).
Proof.
  apply (read_bmp_4bit_no_rows sample_bmp_top_down).
  - split; [split; [vm_compute; reflexivity|]|split; [reflexivity|]];
      apply Nat.leb_le; vm_compute; reflexivity.
  - vm_compute. discriminate.
Defined.

(** C2, as stated, fails on the standalone path: the top-down sample is
    returned with width 3, height -2 and no pixel, and 0 is not
    [3 * -2 * 4]. *)
Lemma top_down_bitmap_length_counterexample :
  exists pixels,
    read_bmp_4bit sample_bmp_top_down = Ok (3, -2, pixels)
    /\ Z.of_nat (length pixels) <> 3 * -2 * 4.
Proof.
  exists []. split; [vm_compute; reflexivity|]. cbn. discriminate.
Qed.

(** C2, amended. Whatever [bmp_to_rgba] returns, on the 32-bit path and
    on the placeholder path, has 32 * 32 * 4 values; what [read_bmp_4bit]
    returns with a width and a height has [max(width, 0) * max(height, 0)
    * 4] values, which is [width * height * 4] when neither is
    negative. *)
Theorem decoded_length (width height : Z) (pixels : list Z) :
  (exists bmp_data bit_count events,
     bmp_to_rgba bmp_data bit_count = Ok (pixels, events)
     /\ width = 32 /\ height = 32)
  \/ (exists bmp, read_bmp_4bit bmp = Ok (width, height, pixels)) ->
  Z.of_nat (length pixels) = Z.max 0 width * Z.max 0 height * 4
  /\ (0 <= width -> 0 <= height ->
      Z.of_nat (length pixels) = width * height * 4).
Proof.
  intros [(bmp_data & bit_count & events & H & -> & ->) | (bmp & H)].
  - assert (length pixels = 4096%nat) as Hlen.
    { destruct (Nat.le_gt_cases 12 (length bmp_data)) as [Hhdr|Hhdr].
      - rewrite bmp_to_rgba_unfold in H by exact Hhdr.
        destruct (negb (DibView.width bmp_data =? 32)
                  || negb (DibView.actual_height bmp_data =? 32));
          [discriminate H|].
        destruct (bit_count =? 32).
        + destruct (collect _ _) as [px|e] eqn:E; [|discriminate H].
          cbn [rbind] in H. apply pixel_rows_length in E. congruence.
        + injection H as <- _. apply placeholder_length.
      - rewrite bmp_to_rgba_no_header in H by exact Hhdr. discriminate H. }
    rewrite Hlen. split; [reflexivity|intros _ _; reflexivity].
  - apply read_bmp_4bit_returns in H as (_ & H & _).
    injection H as -> -> ->. rewrite stored_rows_length.
    split; [lia|]. intros Hw Hh. lia.
Qed.

Lemma decoded_length_witness :
  exists pixels,
    read_bmp_4bit sample_bmp = Ok (3, 2, pixels)
    /\ Z.of_nat (length pixels) = 3 * 2 * 4.
Proof.
  eexists. split; [vm_compute; reflexivity|].
  refine (proj2 (decoded_length 3 2 _ _) _ _); [|lia|lia].
  right. exists sample_bmp. vm_compute. reflexivity.
Defined.

(** C4. Whenever [read_bmp_4bit] returns an image of positive height, it
    is the declared width and height with the stored rows in the order of
    the file, where row [k] starts [k * row_size] bytes after the pixel
    offset, [row_size] being [ceil(width * 4 / 32) * 4]; pixel [x] of a
    row is the palette entry whose index is the high nibble of byte
    [x / 2] of the row for an even [x] and its low nibble for an odd [x].
    Every byte so used lies inside the file and before byte
    [(width + 1) / 2] of its row, so the padding of a row is never used.
    The byte 0x3F decodes to palette entries 3 and 15. *)
Theorem read_bmp_4bit_unpacks_rows (bmp : list byte) (w h : Z)
    (pixels : list Z) :
  read_bmp_4bit bmp = Ok (w, h, pixels) -> 0 < h ->
  w = width bmp /\ h = height bmp
  /\ row_size w = ceil_div (w * 4) 32 * 4
  /\ pixels
     = flat_map (fun k =>
         flat_map (fun x =>
           let v := byte_nth bmp (Z.to_nat (pixel_offset bmp)
                                  + k * Z.to_nat (row_size w)
                                  + Z.to_nat (x / 2)) in
           let palette_index := if x mod 2 =? 0 then v / 16 else v mod 16 in
           rgba_of (nth (Z.to_nat palette_index) (palette bmp) (0, 0, 0, 0)))
           (range w))
         (seq 0 (Z.to_nat h))
  /\ length (palette bmp) = 16%nat
  /\ (forall (k : nat) (x : Z), (k < Z.to_nat h)%nat -> 0 <= x < w ->
        0 <= x / 2 < (w + 1) / 2 /\ (w + 1) / 2 <= row_size w
        /\ (Z.to_nat (pixel_offset bmp) + k * Z.to_nat (row_size w)
            + Z.to_nat (x / 2) < length bmp)%nat)
  /\ (forall v, 0 <= v < 256 ->
        Z.land (Z.shiftr v 4) 15 = v / 16 /\ Z.land v 15 = v mod 16)
  /\ (forall (colors : list color) (c3 c15 : color),
        nth_error colors 3 = Some c3 -> nth_error colors 15 = Some c15 ->
        decode_row colors [x3f] 2 [] = Ok (rgba_of c3 ++ rgba_of c15)).
Proof.
  intros H Hh. apply read_bmp_4bit_returns in H as (_ & H & Hvalid).
  injection H as -> -> ->.
  split; [reflexivity|]. split; [reflexivity|].
  split; [apply row_size_ceil|]. split; [reflexivity|].
  split; [apply palette_length|]. split; [|split].
  - intros k x Hk Hx. destruct (pixel_bytes_in_row (width bmp) x Hx).
    repeat split; try lia. apply (Hvalid k x Hk Hx).
  - intros v Hv. split; [apply high_nibble, Hv | apply low_nibble].
  - intros colors [[[r3 g3] b3] a3] [[[r15 g15] b15] a15] H3 H15.
    unfold decode_row.
    change (range 2) with [0; 1]. cbn [for_each rbind].
    change (index_bytes [x3f] (0 / 2)) with (@Ok Z 63).
    change (index_bytes [x3f] (1 / 2)) with (@Ok Z 63).
    change (0 mod 2 =? 0) with true. change (1 mod 2 =? 0) with false.
    cbn [rbind]. change (Z.land (Z.shiftr 63 4) 15) with 3.
    change (Z.land 63 15) with 15. unfold index_list.
    change (Z.to_nat 3) with 3%nat. change (Z.to_nat 15) with 15%nat.
    rewrite H3. cbn [rbind]. rewrite H15. reflexivity.
Qed.

Lemma read_bmp_4bit_unpacks_rows_witness :
  row_size 3 = ceil_div (3 * 4) 32 * 4
  /\ forall (k : nat) (x : Z), (k < 2)%nat -> 0 <= x < 3 ->
       0 <= x / 2 < (3 + 1) / 2 /\ (3 + 1) / 2 <= row_size 3
       /\ (Z.to_nat (pixel_offset sample_bmp) + k * Z.to_nat (row_size 3)
           + Z.to_nat (x / 2) < length sample_bmp)%nat.
Proof.
  destruct (read_bmp_4bit_unpacks_rows sample_bmp 3 2
              [255; 0; 0; 255; 255; 0; 255; 0; 18; 17; 16; 255;
               34; 33; 32; 255; 18; 17; 16; 255; 255; 0; 255; 0])
    as (_ & _ & Hstride & _ & _ & Hbytes & _).
  - vm_compute. reflexivity.
  - lia.
  - split; [exact Hstride|exact Hbytes].
Defined.

(** C3, on the standalone path, fails: [read_bmp_4bit] on the sample of
    two stored rows returns the first stored row as row 0 of its output,
    not the last one.  The rows are read one after the other from the
    pixel offset and appended as they come; the loop index that counts
    down is not used. *)
Theorem read_bmp_4bit_keeps_stored_order :
  exists pixels,
    read_bmp_4bit sample_bmp = Ok (3, 2, pixels)
    /\ firstn 12 pixels = stored_row sample_bmp 0
    /\ skipn 12 pixels = stored_row sample_bmp 1
    /\ firstn 12 pixels <> stored_row sample_bmp 1.
Proof.
  eexists. split; [vm_compute; reflexivity|].
  split; [vm_compute; reflexivity|]. split; [vm_compute; reflexivity|].
  vm_compute. discriminate.
Qed.

(** The same on every file: row [k] of the output is the [k]-th stored
    row. *)
Lemma read_bmp_4bit_stored_order (bmp : list byte) (w h : Z)
    (pixels : list Z) :
  read_bmp_4bit bmp = Ok (w, h, pixels) ->
  pixels = flat_map (stored_row bmp) (seq 0 (Z.to_nat h)).
Proof.
  intros H. apply read_bmp_4bit_returns in H as (_ & H & _).
  now injection H as -> -> ->.
Qed.

(** The icon decoder, on the 32-bit sample, does put the last stored row
    first. *)
Example bmp_to_rgba_sample_first_row :
  exists pixels,
    bmp_to_rgba sample_dib32 32 = Ok (pixels, [])
    /\ firstn 8 pixels = [7; 31; 0; 255; 7; 31; 1; 255].
Proof. eexists. split; vm_compute; reflexivity. Qed.

End BmpClaims.

(** * Further properties *)

(** ** Lists cut in blocks *)

Section Blocks.

Context {X : Type}.

(** A loop that extends a list raises what one of its items raises, when
    no item raises anything else. *)
Lemma collect_raise (f : X -> result (list Z)) (e : exn) (xs : list X) :
  (forall x, In x xs -> f x = Raise e \/ exists v, f x = Ok v) ->
  (exists x, In x xs /\ f x = Raise e) ->
  collect f xs = Raise e.
Proof.
  induction xs as [|x xs IH]; intros Hall (x0 & Hin & Hx0); [destruct Hin|].
  rewrite collect_cons.
  destruct (Hall x (or_introl eq_refl)) as [Hx|[v Hx]]; rewrite Hx;
    cbn [rbind]; [reflexivity|].
  rewrite IH; [reflexivity| |].
  - intros x1 Hin1. apply Hall. right. exact Hin1.
  - destruct Hin as [<-|Hin]; [congruence|]. exists x0. split; assumption.
Qed.

Lemma collect_ext (f f' : X -> result (list Z)) (xs : list X) :
  (forall x, In x xs -> f x = f' x) -> collect f xs = collect f' xs.
Proof.
  intros Heq. unfold collect. apply for_each_ext. intros s x Hin.
  unfold extend_with. now rewrite Heq.
Qed.

(** Block [i] of a concatenation of blocks of one length. *)
Lemma flat_map_block (g : X -> list Z) (c : nat) (xs : list X) :
  (forall x, In x xs -> length (g x) = c) ->
  forall (i : nat) (x : X), nth_error xs i = Some x ->
  firstn c (skipn (i * c) (flat_map g xs)) = g x.
Proof.
  induction xs as [|x0 xs IH]; intros Hlen i x Hi.
  - destruct i; discriminate Hi.
  - cbn [flat_map]. assert (length (g x0) = c) as H0
      by (apply Hlen; left; reflexivity).
    destruct i as [|i]; cbn [nth_error] in Hi.
    + injection Hi as <-. cbn [Nat.mul skipn].
      rewrite firstn_app, H0, Nat.sub_diag, firstn_O, app_nil_r.
      apply firstn_all2. lia.
    + rewrite skipn_app, H0.
      replace (S i * c - c)%nat with (i * c)%nat by lia.
      rewrite (skipn_all2 (g x0)) by lia. cbn [app].
      apply IH; [|exact Hi]. intros x1 Hin. apply Hlen. right. exact Hin.
Qed.

End Blocks.

Lemma firstn_skipn_firstn {A : Type} (l : list A) (a b c : nat) :
  (a + b <= c)%nat ->
  firstn b (skipn a (firstn c l)) = firstn b (skipn a l).
Proof.
  intros H. rewrite skipn_firstn_comm, firstn_firstn. f_equal. lia.
Qed.

Lemma nth_error_range (n : Z) (i : nat) :
  (i < Z.to_nat n)%nat -> nth_error (range n) i = Some (Z.of_nat i).
Proof.
  intros Hi. unfold range. rewrite nth_error_map, nth_error_seq.
  destruct (Nat.ltb_spec i (Z.to_nat n)); [reflexivity|lia].
Qed.

Lemma nth_error_range_down (start stop : Z) (i : nat) :
  (i < Z.to_nat (start - stop))%nat ->
  nth_error (range_down start stop) i = Some (start - Z.of_nat i).
Proof.
  intros Hi. unfold range_down. rewrite nth_error_map, nth_error_seq.
  destruct (Nat.ltb_spec i (Z.to_nat (start - stop))); [reflexivity|lia].
Qed.

(** Two lists that agree at every index are equal. *)
Lemma nth_error_ext_eq {A : Type} (l l' : list A) :
  (forall i, nth_error l i = nth_error l' i) -> l = l'.
Proof.
  revert l'. induction l as [|a l IH]; intros [|a' l'] H.
  - reflexivity.
  - discriminate (H 0%nat).
  - discriminate (H 0%nat).
  - f_equal; [now injection (H 0%nat)|]. apply IH. intros i. exact (H (S i)).
Qed.

Lemma chunk_ext (buf buf' : list byte) (pos n : nat) :
  (forall i, (pos <= i < pos + n)%nat -> nth_error buf i = nth_error buf' i) ->
  chunk buf pos n = chunk buf' pos n.
Proof.
  intros H. apply nth_error_ext_eq. intros i. unfold chunk.
  rewrite !nth_error_firstn, !nth_error_skipn.
  destruct (Nat.ltb_spec i n); [|reflexivity]. apply H. lia.
Qed.

Lemma index_bytes_ext (buf buf' : list byte) (i : Z) :
  nth_error buf (Z.to_nat i) = nth_error buf' (Z.to_nat i) ->
  index_bytes buf i = index_bytes buf' i.
Proof. unfold index_bytes. now intros ->. Qed.

Lemma index_bytes_out (buf : list byte) (i : Z) :
  Z.of_nat (length buf) <= i -> index_bytes buf i = Raise IndexError.
Proof.
  intros Hi. unfold index_bytes.
  destruct (nth_error buf (Z.to_nat i)) eqn:E; [|reflexivity].
  assert (Z.to_nat i < length buf)%nat by (apply nth_error_Some; congruence).
  lia.
Qed.

(** ** More on the icon decoders *)

Section IconMore.

Import IcoView DibView.

(** A 32-bit image cut before the end of its pixel data: the last stored
    row, which is decoded first, runs out of bytes. *)
Lemma bmp_to_rgba_short_pixels (bmp_data : list byte) :
  (length bmp_data < 4136)%nat ->
  collect (fun y => collect (pixel_at bmp_data y) (range 32))
    (range_down 31 (-1)) = Raise IndexError.
Proof.
  intros Hshort. apply collect_raise.
  - intros y _. apply pixel_row_cases.
  - exists 31. split; [apply in_range_down; lia|].
    apply collect_raise.
    + intros x _. destruct (pixel_at_cases bmp_data 31 x) as [H|(v & H & _)];
        [left; exact H|right; now exists v].
    + exists 31. split; [apply in_range; lia|]. unfold pixel_at.
      destruct (index_bytes bmp_data (pixel_start 31 31)) as [b|e] eqn:Eb;
        [|now destruct (index_bytes_cases bmp_data (pixel_start 31 31))
               as [H|(v & H & _)]; rewrite H in Eb; inversion Eb].
      destruct (index_bytes bmp_data (pixel_start 31 31 + 1)) as [g|e] eqn:Eg;
        [|now destruct (index_bytes_cases bmp_data (pixel_start 31 31 + 1))
               as [H|(v & H & _)]; rewrite H in Eg; inversion Eg].
      destruct (index_bytes bmp_data (pixel_start 31 31 + 2)) as [r|e] eqn:Er;
        [|now destruct (index_bytes_cases bmp_data (pixel_start 31 31 + 2))
               as [H|(v & H & _)]; rewrite H in Er; inversion Er].
      cbn [rbind]. rewrite index_bytes_out; [reflexivity|].
      unfold pixel_start. lia.
Qed.

(** X1. The image of the selected entry is read without any check
    against the file: [parse_ico] returns the part of it that is inside
    the file, possibly nothing, and the conversion then raises
    [TruncatedInput] when fewer than twelve bytes were there. *)
Theorem parse_ico_clips_image (ico : list byte) (i : nat) (d : descriptor) :
  valid_header ico -> complete_directory ico ->
  chosen (directory ico) i d ->
  parse_ico ico = Ok (image_data ico d, bit_count d)
  /\ length (image_data ico d)
     = Nat.min (Z.to_nat (bytes_in_res d))
         (length ico - Z.to_nat (image_offset d))
  /\ ((length ico < Z.to_nat (image_offset d) + 12)%nat
      \/ bytes_in_res d < 12 ->
      convert_icon ico = Raise TruncatedInput).
Proof.
  intros Hvalid Hdir Hch.
  assert (parse_ico ico = Ok (image_data ico d, bit_count d)) as Hparse.
  { destruct (parse_ico_complete ico Hvalid Hdir)
      as [[Hnone _] | (j & e & Hch' & Hok)].
    - exfalso. destruct Hch as (Hi & Hd & _). rewrite Forall_forall in Hnone.
      exact (Hnone d (nth_error_In _ _ Hi) Hd).
    - destruct (chosen_unique _ _ _ _ _ Hch Hch') as [_ ->]. exact Hok. }
  assert (length (image_data ico d)
          = Nat.min (Z.to_nat (bytes_in_res d))
              (length ico - Z.to_nat (image_offset d))) as Hlen
    by (unfold image_data, chunk; now rewrite length_firstn, length_skipn).
  split; [exact Hparse|]. split; [exact Hlen|].
  intros Hcut. unfold convert_icon. rewrite Hparse. cbn [rbind].
  apply bmp_to_rgba_no_header. rewrite Hlen. lia.
Qed.

Lemma parse_ico_clips_image_witness :
  parse_ico sample_ico
  = Ok (image_data sample_ico (descriptor_at sample_ico 38),
        bit_count (descriptor_at sample_ico 38))
  /\ convert_icon sample_ico = Raise TruncatedInput.
Proof.
  destruct (parse_ico_clips_image sample_ico 2 (descriptor_at sample_ico 38))
    as (Hparse & _ & Hconv).
  - split; reflexivity.
  - unfold complete_directory. apply Nat.leb_le. vm_compute. reflexivity.
  - split; [vm_compute; reflexivity|]. split; [split; reflexivity|].
    intros j d' Hj [Hw Hh].
    do 5 (destruct j as [|j];
          [vm_compute in Hj; injection Hj as <-;
           first [discriminate Hw | cbn; split; [lia|lia]]|]).
    destruct j; discriminate Hj.
  - split; [exact Hparse|]. apply Hconv. right. vm_compute. reflexivity.
Defined.

(** X2. A truncated image: with fewer than twelve bytes, [bmp_to_rgba]
    raises [TruncatedInput] for every bit count; with the geometry of a
    32x32 image but fewer than the 4136 bytes of header and pixels, the
    32-bit decoder raises [IndexError]. *)
Theorem bmp_to_rgba_truncated (bmp_data : list byte) :
  (length bmp_data < 4136)%nat ->
  ((length bmp_data < 12)%nat ->
   forall bit_count, bmp_to_rgba bmp_data bit_count = Raise TruncatedInput)
  /\ ((12 <= length bmp_data)%nat ->
      width bmp_data = 32 -> Z.abs (height bmp_data) / 2 = 32 ->
      bmp_to_rgba bmp_data 32 = Raise IndexError).
Proof.
  intros Hshort. split.
  - intros Hhdr bit_count. now apply bmp_to_rgba_no_header.
  - intros Hhdr Hw Hh. rewrite bmp_to_rgba_unfold by exact Hhdr.
    unfold actual_height. rewrite Hw, Hh. cbn [Z.eqb Pos.eqb negb orb].
    now rewrite bmp_to_rgba_short_pixels by exact Hshort.
Qed.

Lemma bmp_to_rgba_truncated_witness :
  bmp_to_rgba sample_dib8 32 = Raise IndexError
  /\ bmp_to_rgba [] 8 = Raise TruncatedInput.
Proof.
  split.
  - apply (proj2 (bmp_to_rgba_truncated sample_dib8
                    ltac:(apply Nat.ltb_lt; vm_compute; reflexivity))).
    + apply Nat.leb_le. vm_compute. reflexivity.
    + vm_compute. reflexivity.
    + vm_compute. reflexivity.
  - apply (proj1 (bmp_to_rgba_truncated []
                    ltac:(apply Nat.ltb_lt; vm_compute; reflexivity))).
    apply Nat.ltb_lt. vm_compute. reflexivity.
Defined.

(** X3. Whenever the 32-bit decoder returns, the pixel in row [k] and
    column [x] of its output is the stored pixel of row [31 - k] and
    column [x], found at byte [40 + ((31 - k) * 32 + x) * 4] of the
    image whatever header size the image declares, with its bytes
    reordered from blue, green, red, alpha to red, green, blue, alpha. *)
Theorem bmp_to_rgba_pixel (bmp_data : list byte) (pixels : list Z)
    (events : list event) (k x : nat) :
  bmp_to_rgba bmp_data 32 = Ok (pixels, events) ->
  (k < 32)%nat -> (x < 32)%nat ->
  40 + ((31 - Z.of_nat k) * 32 + Z.of_nat x) * 4 + 3
  < Z.of_nat (length bmp_data)
  /\ firstn 4 (skipn (4 * (32 * k + x)) pixels)
     = [byte_at bmp_data (40 + ((31 - Z.of_nat k) * 32 + Z.of_nat x) * 4 + 2);
        byte_at bmp_data (40 + ((31 - Z.of_nat k) * 32 + Z.of_nat x) * 4 + 1);
        byte_at bmp_data (40 + ((31 - Z.of_nat k) * 32 + Z.of_nat x) * 4);
        byte_at bmp_data (40 + ((31 - Z.of_nat k) * 32 + Z.of_nat x) * 4 + 3)].
Proof.
  intros H Hk Hx.
  destruct (bmp_to_rgba_ok_geometry bmp_data 32 _ H) as (Hhdr & Hw & Hh).
  assert (4136 <= length bmp_data)%nat as Hlen.
  { destruct (Nat.le_gt_cases 4136 (length bmp_data)) as [?|Hshort];
      [assumption|exfalso].
    rewrite bmp_to_rgba_unfold in H by exact Hhdr.
    rewrite Hw, Hh in H. cbn [Z.eqb Pos.eqb negb orb] in H.
    rewrite bmp_to_rgba_short_pixels in H by exact Hshort. discriminate H. }
  split; [lia|].
  rewrite bmp_to_rgba_top_down in H by assumption.
  assert (pixels = flat_map (rgba_row bmp_data) (range_down 31 (-1))) as ->
    by congruence.
  replace (4 * (32 * k + x))%nat with (x * 4 + k * 128)%nat by lia.
  rewrite <- skipn_skipn.
  rewrite <- (firstn_skipn_firstn _ (x * 4) 4 128) by lia.
  rewrite (flat_map_block (rgba_row bmp_data) 128 _
             (fun y _ => eq_refl) k (31 - Z.of_nat k)).
  - unfold rgba_row.
    rewrite (flat_map_block (rgba_at bmp_data (31 - Z.of_nat k)) 4 _
               (fun x0 _ => eq_refl) x (Z.of_nat x)).
    + reflexivity.
    + apply nth_error_range. lia.
  - apply nth_error_range_down. lia.
Qed.

Lemma bmp_to_rgba_pixel_witness :
  exists pixels,
    bmp_to_rgba sample_dib32 32 = Ok (pixels, [])
    /\ firstn 4 (skipn (4 * (32 * 0 + 1)) pixels)
       = [byte_at sample_dib32 4014; byte_at sample_dib32 4013;
          byte_at sample_dib32 4012; byte_at sample_dib32 4015].
Proof.
  eexists. split; [vm_compute; reflexivity|].
  refine (proj2 (bmp_to_rgba_pixel sample_dib32 _ [] 0 1 _ _ _));
    [vm_compute; reflexivity|lia|lia].
Defined.

End IconMore.

Section IconMoreReads.

Import DibView.

(** X4. [bmp_to_rgba] looks at bytes 4 to 11 of the image (the declared
    width and height) and, on the 32-bit path, at bytes 40 to 4135 (the
    pixels): two images that agree there decode alike.  The header size
    it unpacks, the rest of the header and everything after the pixels,
    the mask of the icon included, have no effect. *)
Theorem bmp_to_rgba_reads_only (d1 d2 : list byte) (bit_count : Z) :
  (forall i : nat,
     (4 <= i < 12)%nat \/ (bit_count = 32 /\ (40 <= i < 4136)%nat) ->
     nth_error d1 i = nth_error d2 i) ->
  bmp_to_rgba d1 bit_count = bmp_to_rgba d2 bit_count.
Proof.
  intros Hsame.
  assert (forall d d' : list byte,
            nth_error d 11 = nth_error d' 11 ->
            (12 <= length d)%nat -> (12 <= length d')%nat) as Hlen.
  { intros d d' H11 Hd.
    assert (nth_error d 11 <> None) as Hsome by (apply nth_error_Some; lia).
    rewrite H11 in Hsome. apply nth_error_Some in Hsome. lia. }
  pose proof (Hsame 11%nat ltac:(lia)) as H11.
  destruct (Nat.le_gt_cases 12 (length d1)) as [H1|H1].
  - pose proof (Hlen d1 d2 H11 H1) as H2.
    rewrite !bmp_to_rgba_unfold by assumption.
    assert (width d1 = width d2) as Hw.
    { unfold width, int32_at, uint_at. f_equal. f_equal.
      apply chunk_ext. intros i Hi. apply Hsame. lia. }
    assert (actual_height d1 = actual_height d2) as Hh.
    { unfold actual_height, height, int32_at, uint_at. do 4 f_equal.
      apply chunk_ext. intros i Hi. apply Hsame. lia. }
    rewrite Hw, Hh.
    destruct (negb (width d2 =? 32) || negb (actual_height d2 =? 32));
      cbv iota; [reflexivity|].
    destruct (Z.eqb_spec bit_count 32) as [Hbits|Hbits]; cbv iota;
      [|reflexivity].
    rewrite (collect_ext (fun y => collect (pixel_at d1 y) (range 32))
               (fun y => collect (pixel_at d2 y) (range 32)));
      [reflexivity|].
    intros y Hy. apply in_range_down in Hy.
    apply collect_ext. intros x Hx. apply in_range in Hx.
    unfold pixel_at, pixel_start.
    rewrite (index_bytes_ext d1 d2 (40 + (y * 32 + x) * 4))
      by (apply Hsame; right; split; [assumption|lia]).
    rewrite (index_bytes_ext d1 d2 (40 + (y * 32 + x) * 4 + 1))
      by (apply Hsame; right; split; [assumption|lia]).
    rewrite (index_bytes_ext d1 d2 (40 + (y * 32 + x) * 4 + 2))
      by (apply Hsame; right; split; [assumption|lia]).
    rewrite (index_bytes_ext d1 d2 (40 + (y * 32 + x) * 4 + 3))
      by (apply Hsame; right; split; [assumption|lia]).
    reflexivity.
  - assert (length d2 < 12)%nat as H2.
    { destruct (Nat.le_gt_cases 12 (length d2)) as [H2|H2]; [|exact H2].
      pose proof (Hlen d2 d1 (eq_sym H11) H2). lia. }
    now rewrite !bmp_to_rgba_no_header by assumption.
Qed.

Lemma bmp_to_rgba_reads_only_witness :
  bmp_to_rgba sample_dib32 32
  = bmp_to_rgba (sample_dib32 ++ [xff; x00; xff]) 32.
Proof.
  apply bmp_to_rgba_reads_only. intros i Hi. symmetry.
  apply nth_error_app1.
  assert (Nat.ltb 4135 (length sample_dib32) = true) as Hlen
    by (vm_compute; reflexivity).
  apply Nat.ltb_lt in Hlen. lia.
Defined.

(** Whatever [bmp_to_rgba] returns is made of byte values and has
    32 * 32 * 4 of them. *)
Lemma bmp_to_rgba_bytes (bmp_data : list byte) (bit_count : Z)
    (pixels : list Z) (events : list event) :
  bmp_to_rgba bmp_data bit_count = Ok (pixels, events) ->
  Forall (fun v => 0 <= v < 256) pixels.
Proof.
  intros H.
  destruct (bmp_to_rgba_ok_geometry bmp_data bit_count _ H)
    as (Hhdr & Hw & Hh).
  rewrite bmp_to_rgba_unfold in H by exact Hhdr.
  rewrite Hw, Hh in H. cbn [Z.eqb Pos.eqb negb orb] in H.
  destruct (bit_count =? 32).
  - destruct (collect _ _) as [px|e] eqn:E; [|discriminate H].
    cbn [rbind] in H. assert (px = pixels) as -> by congruence.
    apply collect_ok_inv in E as (rows & Hrows & ->).
    apply Forall_flat_map, Forall_forall. intros y Hy.
    specialize (Hrows y Hy).
    apply collect_ok_inv in Hrows as (px & Hpx & ->).
    apply Forall_flat_map, Forall_forall. intros x Hx.
    specialize (Hpx x Hx).
    destruct (pixel_at_cases bmp_data y x) as [Hr|(v & Hv & Hrange)];
      [congruence|].
    rewrite Hv in Hpx. now injection Hpx as <-.
  - assert (pixels = placeholder) as -> by congruence.
    unfold placeholder. apply Forall_concat, Forall_forall.
    intros c Hc. apply repeat_spec in Hc as ->.
    unfold placeholder_color. repeat constructor; lia.
Qed.


Lemma bmp_to_rgba_length (bmp_data : list byte) (bit_count : Z)
    (pixels : list Z) (events : list event) :
  bmp_to_rgba bmp_data bit_count = Ok (pixels, events) ->
  length pixels = 4096%nat.
Proof.
  intros H.
  destruct (bmp_to_rgba_ok_geometry bmp_data bit_count _ H)
    as (Hhdr & Hw & Hh).
  rewrite bmp_to_rgba_unfold in H by exact Hhdr.
  rewrite Hw, Hh in H. cbn [Z.eqb Pos.eqb negb orb] in H.
  destruct (bit_count =? 32).
  - destruct (collect _ _) as [px|e] eqn:E; [|discriminate H].
    cbn [rbind] in H. apply pixel_rows_length in E. congruence.
  - assert (pixels = placeholder) as -> by congruence.
    apply placeholder_length.
Qed.

(** X5. Every value [bmp_to_rgba] returns is a byte value: between 0 and
    255. *)
Theorem bmp_to_rgba_values_are_bytes (bmp_data : list byte) (bit_count : Z)
    (pixels : list Z) (events : list event) :
  bmp_to_rgba bmp_data bit_count = Ok (pixels, events) ->
  Forall (fun v => 0 <= v < 256) pixels.
Proof. apply bmp_to_rgba_bytes. Qed.

Lemma bmp_to_rgba_values_are_bytes_witness :
  Forall (fun v => 0 <= v < 256) placeholder.
Proof.
  apply (bmp_to_rgba_values_are_bytes sample_dib8 8 placeholder
           [Warning_placeholder 8]).
  vm_compute. reflexivity.
Defined.

End IconMoreReads.

(** ** More on the start-button bitmap *)

Section BmpMore.

Import BmpView.

Lemma collect_ok_ex {X : Type} (f : X -> result (list Z)) (xs : list X) :
  (forall x, In x xs -> exists v, f x = Ok v) ->
  exists out, collect f xs = Ok out.
Proof.
  induction xs as [|x xs IH]; intros Hok; [now exists []|].
  destruct (Hok x (or_introl eq_refl)) as [v Hv].
  destruct IH as [w Hw]; [intros x0 Hin; apply Hok; right; exact Hin|].
  exists (v ++ w). now rewrite collect_cons, Hv, Hw.
Qed.

Lemma index_list_cases {A : Type} (xs : list A) (i : Z) :
  index_list xs i = Raise IndexError \/ exists a, index_list xs i = Ok a.
Proof.
  unfold index_list. destruct (nth_error xs (Z.to_nat i)) as [a|];
    [right; now exists a|left; reflexivity].
Qed.

(** One column either decodes or raises [IndexError]. *)
Lemma row_pixel_cases (palette : list color) (row_data : list byte) (x : Z) :
  row_pixel palette row_data x = Raise IndexError
  \/ exists v, row_pixel palette row_data x = Ok v.
Proof.
  unfold row_pixel.
  destruct (index_bytes_cases row_data (x / 2)) as [->|(v & -> & _)];
    [left; now destruct (x mod 2 =? 0)|].
  destruct (x mod 2 =? 0); cbn [rbind];
    match goal with
    | |- context [index_list palette ?i] =>
        destruct (index_list_cases palette i)
          as [->|([[[r g] b] a] & ->)];
        [left; reflexivity|right; eexists; reflexivity]
    end.
Qed.

(** It decodes when its byte is in the row and the palette has its
    sixteen entries. *)
Lemma row_pixel_ok (palette : list color) (row_data : list byte) (x : Z) :
  length palette = 16%nat -> 0 <= x ->
  (Z.to_nat (x / 2) < length row_data)%nat ->
  exists v, row_pixel palette row_data x = Ok v.
Proof.
  intros Hpal Hx Hin. unfold row_pixel.
  assert (0 <= x / 2) by (apply Z.div_pos; lia).
  rewrite index_bytes_ok by lia. unfold byte_at.
  pose proof (byte_nth_range row_data (Z.to_nat (x / 2))) as Hb.
  pose proof (nibble_range _ x Hb) as Hn. unfold nibble in Hn.
  destruct (x mod 2 =? 0); cbn [rbind];
    [rewrite high_nibble by exact Hb | rewrite low_nibble];
    unfold index_list;
    match goal with
    | |- context [nth_error palette ?i] =>
        destruct (nth_error palette i) as [[[[r g] b] a]|] eqn:E;
        [eexists; reflexivity
        |apply nth_error_None in E; lia]
    end.
Qed.

Section Rows.

Variable bmp : list byte.
Variable palette : list color.
Variable width : Z.
Hypothesis palette_16 : length palette = 16%nat.
Hypothesis width_pos : 0 < width.

Lemma pixel_bytes_le : (0 < pixel_bytes width <= row_bytes width)%nat.
Proof.
  unfold BmpView.pixel_bytes, BmpView.row_bytes.
  destruct (pixel_bytes_in_row width 0 ltac:(lia)) as [? ?]. lia.
Qed.

Lemma row_size_nonneg : 0 <= row_size width.
Proof.
  unfold row_size. apply Z.mul_nonneg_nonneg; [|lia]. apply Z.div_pos; lia.
Qed.

Lemma decode_row_ok (row_data : list byte) (pixels : list Z) :
  (pixel_bytes width <= length row_data)%nat ->
  exists out, decode_row palette row_data width pixels = Ok out.
Proof.
  intros Hlen. rewrite decode_row_collect.
  destruct (collect_ok_ex (row_pixel palette row_data) (range width))
    as [v Hv].
  - intros x Hx. apply in_range in Hx.
    apply row_pixel_ok; [exact palette_16|lia|].
    destruct (pixel_bytes_in_row width x Hx) as [? ?].
    unfold BmpView.pixel_bytes in Hlen. lia.
  - rewrite Hv. now eexists.
Qed.

Lemma decode_row_short (row_data : list byte) (pixels : list Z) :
  (length row_data < pixel_bytes width)%nat ->
  decode_row palette row_data width pixels = Raise IndexError.
Proof.
  intros Hlen. rewrite decode_row_collect.
  rewrite (collect_raise (row_pixel palette row_data) IndexError);
    [reflexivity| |].
  - intros x _. apply row_pixel_cases.
  - exists (width - 1). split; [apply in_range; lia|].
    unfold row_pixel. rewrite index_bytes_out; [now destruct (_ =? 0)|].
    unfold BmpView.pixel_bytes in Hlen.
    replace ((width + 1) / 2) with ((width - 1) / 2 + 1) in Hlen
      by (rewrite <- Z.div_add by lia; f_equal; lia).
    assert (0 <= (width - 1) / 2) by (apply Z.div_pos; lia). lia.
Qed.

(** The loop over the rows returns exactly when the pixel bytes of every
    row are in the file; the padding of the last row need not be.
    Otherwise it raises [IndexError]. *)
Lemma rows_loop_total (ys : list Z) :
  ys <> [] ->
  forall (pos : nat) (pixels : list Z),
  ((pos + (length ys - 1) * row_bytes width + pixel_bytes width
    <= length bmp)%nat ->
   exists out,
     fst (for_io ys (row_body palette width) pixels bmp pos) = Ok out)
  /\ ((length bmp
       < pos + (length ys - 1) * row_bytes width + pixel_bytes width)%nat ->
      fst (for_io ys (row_body palette width) pixels bmp pos)
      = Raise IndexError).
Proof.
  pose proof pixel_bytes_le as Hpb. pose proof row_size_nonneg as Hrs.
  induction ys as [|y ys IH]; intros Hne pos pixels; [contradiction|].
  assert (forall k : list Z -> io (list Z),
            (y0 <- row_body palette width pixels y ;; k y0) bmp pos
            = (x <- lift (decode_row palette (chunk bmp pos (row_bytes width))
                            width pixels) ;; k x) bmp
                (pos + length (chunk bmp pos (row_bytes width)))%nat) as Hstep.
  { intros k. unfold row_body. rewrite bind_assoc.
    now rewrite bind_f_read by exact Hrs. }
  cbn [for_io]. rewrite Hstep.
  assert (length (chunk bmp pos (row_bytes width))
          = Nat.min (row_bytes width) (length bmp - pos)) as Hdata
    by (unfold chunk; now rewrite length_firstn, length_skipn).
  destruct ys as [|y' ys'].
  - cbn [length for_io]. split; intros Hfile.
    + destruct (decode_row_ok (chunk bmp pos (row_bytes width)) pixels)
        as [out Hout]; [lia|]. exists out. now rewrite Hout.
    + rewrite decode_row_short by lia. reflexivity.
  - specialize (IH ltac:(discriminate)). cbn [length] in *.
    split; intros Hfile.
    + destruct (decode_row_ok (chunk bmp pos (row_bytes width)) pixels)
        as [out Hout]; [lia|].
      rewrite Hout. cbn [lift]. unfold bind at 1, ret at 1.
      apply IH. rewrite Hdata. lia.
    + destruct (Nat.le_gt_cases (pixel_bytes width)
                  (length (chunk bmp pos (row_bytes width))))
        as [Hrow|Hrow].
      * destruct (decode_row_ok (chunk bmp pos (row_bytes width)) pixels)
          as [out Hout]; [exact Hrow|]. rewrite Hout. cbn [lift].
        unfold bind at 1, ret at 1. apply IH. rewrite Hdata in *. lia.
      * rewrite decode_row_short by exact Hrow. reflexivity.
Qed.

End Rows.

Lemma bytes_eqb_eq (a b : list byte) : bytes_eqb a b = true <-> a = b.
Proof.
  unfold bytes_eqb. revert b.
  induction a as [|x a IH]; intros [|y b]; cbn; split; intros H;
    try reflexivity; try discriminate.
  - apply andb_true_iff in H as [Hlen H].
    apply andb_true_iff in H as [Hxy H].
    apply byte_dec_bl in Hxy as ->. f_equal. apply IH.
    now rewrite Hlen, H.
  - injection H as -> ->. rewrite (byte_dec_lb eq_refl). cbn [andb].
    pose proof (proj2 (IH b) eq_refl) as H.
    apply andb_true_iff in H as [-> ->]. reflexivity.
Qed.

Lemma bind_ret_ok {A B : Type} (buf : list byte) (m : io B) (f : B -> A)
    (pos : nat) (v : B) :
  fst (m buf pos) = Ok v -> fst ((x <- m ;; ret (f x)) buf pos) = Ok (f v).
Proof.
  unfold bind, ret. destruct (m buf pos) as [[w|e] pos']; cbn; congruence.
Qed.

(** X6. A file that does not start with the two bytes "BM", an empty file
    included, makes [read_bmp_4bit] raise [NotBmp], whatever else it
    holds. *)
Theorem read_bmp_4bit_not_bmp (bmp : list byte) :
  firstn 2 bmp <> [x42; x4d] -> read_bmp_4bit bmp = Raise NotBmp.
Proof.
  intros Hmagic. unfold read_bmp_4bit, with_open, read_bmp_4bit_body.
  rewrite bind_f_read by lia. rewrite !slice_chunk by (cbn; lia).
  change (chunk bmp (0 + 0) (2 - 0)) with (firstn 2 bmp).
  destruct (bytes_eqb (firstn 2 bmp) [x42; x4d]) eqn:E; [|reflexivity].
  apply bytes_eqb_eq in E. contradiction.
Qed.

Lemma read_bmp_4bit_not_bmp_witness :
  read_bmp_4bit [] = Raise NotBmp
  /\ read_bmp_4bit sample_ico32 = Raise NotBmp.
Proof.
  split; apply read_bmp_4bit_not_bmp; vm_compute; discriminate.
Defined.

(** X7. A file that starts with "BM" but stops before the thirty bytes
    that end with the bit count, or that announces 4 bits and stops
    before the end of the sixteen palette entries placed at
    [14 + dib_size], makes [read_bmp_4bit] raise [TruncatedInput]. *)
Theorem read_bmp_4bit_truncated (bmp : list byte) :
  firstn 2 bmp = [x42; x4d] ->
  (length bmp < 30)%nat
  \/ ((30 <= length bmp)%nat /\ bit_count bmp = 4
      /\ (length bmp < Z.to_nat (14 + dib_size bmp) + 64)%nat) ->
  read_bmp_4bit bmp = Raise TruncatedInput.
Proof.
  intros Hmagic Hcut.
  assert (magic_ok bmp = true) as Hm by (now apply bytes_eqb_eq).
  destruct Hcut as [Hshort | (Hlen & Hbits & Hpal)].
  - unfold read_bmp_4bit, with_open, read_bmp_4bit_body.
    rewrite bind_f_read by lia. rewrite !slice_chunk by (cbn; lia).
    cbn [Nat.add Nat.sub]. fold (magic_ok bmp). rewrite Hm. cbn [negb].
    change (Z.to_nat 14) with 14%nat. unfold unpack_I, unpack_i, unpack_H.
    destruct (Nat.le_gt_cases 14 (length bmp)) as [L0|L0];
      [|rewrite (unpack_uint_chunk_short bmp 10 4) by lia; reflexivity].
    rewrite (bind_lift_ok bmp _ _ _ _ (unpack_uint_chunk bmp 10 4 ltac:(lia))).
    rewrite chunk_length by lia. rewrite bind_f_read by lia.
    change (Z.to_nat 4) with 4%nat. cbn [Nat.add].
    destruct (Nat.le_gt_cases 18 (length bmp)) as [L1|L1];
      [|rewrite (unpack_uint_chunk_short bmp 14 4) by lia; reflexivity].
    rewrite (bind_lift_ok bmp _ _ _ _ (unpack_uint_chunk bmp 14 4 ltac:(lia))).
    rewrite chunk_length by lia. rewrite bind_f_read by lia.
    change (Z.to_nat 4) with 4%nat. cbn [Nat.add].
    destruct (Nat.le_gt_cases 22 (length bmp)) as [L2|L2];
      [|rewrite (unpack_uint_chunk_short bmp 18 4) by lia; reflexivity].
    rewrite (bind_lift_ok bmp _ _ _ _ (unpack_i_chunk bmp 18 ltac:(lia))).
    rewrite chunk_length by lia. rewrite bind_f_read by lia.
    change (Z.to_nat 4) with 4%nat. cbn [Nat.add].
    destruct (Nat.le_gt_cases 26 (length bmp)) as [L3|L3];
      [|rewrite (unpack_uint_chunk_short bmp 22 4) by lia; reflexivity].
    rewrite (bind_lift_ok bmp _ _ _ _ (unpack_i_chunk bmp 22 ltac:(lia))).
    rewrite chunk_length by lia. rewrite bind_f_read by lia.
    change (Z.to_nat 2) with 2%nat. change (22 + 4)%nat with 26%nat.
    rewrite bind_f_read by lia. change (Z.to_nat 2) with 2%nat.
    set (p := (26 + length (chunk bmp 26 2))%nat).
    assert (length bmp < p + 2)%nat as Hp
      by (unfold p, chunk; rewrite length_firstn, length_skipn; lia).
    rewrite (unpack_uint_chunk_short bmp p 2) by lia. reflexivity.
  - unfold read_bmp_4bit, with_open.
    rewrite read_bmp_header by (split; assumption).
    rewrite Hbits. cbn [Z.eqb Pos.eqb negb].
    now apply after_header_short.
Qed.

Lemma read_bmp_4bit_truncated_witness :
  read_bmp_4bit [x42; x4d] = Raise TruncatedInput
  /\ read_bmp_4bit (firstn 100 sample_bmp) = Raise TruncatedInput.
Proof.
  split.
  - apply read_bmp_4bit_truncated; [reflexivity|]. left. cbn. lia.
  - apply read_bmp_4bit_truncated; [reflexivity|]. right.
    split; [apply Nat.leb_le; vm_compute; reflexivity|].
    split; [vm_compute; reflexivity|].
    apply Nat.ltb_lt. vm_compute. reflexivity.
Defined.

(** [read_bmp_4bit] on a file that holds the pixel bytes of every row. *)
Lemma read_bmp_4bit_on_complete (bmp : list byte) :
  has_palette bmp -> 0 < width bmp -> 0 < height bmp ->
  (Z.to_nat (pixel_offset bmp)
   + (Z.to_nat (height bmp) - 1) * row_bytes (width bmp)
   + pixel_bytes (width bmp) <= length bmp)%nat ->
  read_bmp_4bit bmp = Ok (width bmp, height bmp, stored_rows bmp).
Proof.
  intros Hpal Hw Hh Hdata.
  assert (exists out, read_bmp_4bit bmp = Ok out) as [out Hout].
  { rewrite read_bmp_4bit_palette by exact Hpal. unfold decode_rows.
    rewrite bind_f_seek by apply pixel_offset_nonneg.
    destruct (rows_loop_total bmp (palette bmp) (width bmp)
                (palette_length bmp) Hw
                (range_down (height bmp - 1) (-1))) with
      (pos := Z.to_nat (pixel_offset bmp)) (pixels := @nil Z)
      as [Hok _].
    - intros Hnil. apply (f_equal (@length Z)) in Hnil.
      rewrite range_down_rows in Hnil. cbn in Hnil. lia.
    - destruct Hok as [px Hpx]; [now rewrite range_down_rows|].
      eexists. apply bind_ret_ok. exact Hpx. }
  rewrite Hout. apply read_bmp_4bit_returns in Hout as (_ & -> & _).
  reflexivity.
Qed.


(** X8. On a 4-bit bitmap file with its header and palette, a positive
    width and a positive height, [read_bmp_4bit] returns as soon as the
    pixel bytes of every row are in the file: the padding of the last
    row may be missing.  It returns the declared width and height and
    the stored rows in file order. *)
Theorem read_bmp_4bit_complete (bmp : list byte) :
  has_palette bmp -> 0 < width bmp -> 0 < height bmp ->
  (Z.to_nat (pixel_offset bmp)
   + (Z.to_nat (height bmp) - 1) * row_bytes (width bmp)
   + pixel_bytes (width bmp) <= length bmp)%nat ->
  read_bmp_4bit bmp = Ok (width bmp, height bmp, stored_rows bmp).
Proof. apply read_bmp_4bit_on_complete. Qed.

Lemma read_bmp_4bit_complete_witness :
  read_bmp_4bit (firstn 124 sample_bmp)
  = Ok (3, 2, stored_rows (firstn 124 sample_bmp)).
Proof.
  apply (read_bmp_4bit_complete (firstn 124 sample_bmp)).
  - split; [split; [vm_compute; reflexivity|]|split; [reflexivity|]];
      apply Nat.leb_le; vm_compute; reflexivity.
  - vm_compute. reflexivity.
  - vm_compute. reflexivity.
  - apply Nat.leb_le. vm_compute. reflexivity.
Defined.

(** X9. On such a file, when the pixel bytes of some row are not all in
    the file, [read_bmp_4bit] raises [IndexError]. *)
Theorem read_bmp_4bit_short_pixels (bmp : list byte) :
  has_palette bmp -> 0 < width bmp -> 0 < height bmp ->
  (length bmp
   < Z.to_nat (pixel_offset bmp)
     + (Z.to_nat (height bmp) - 1) * row_bytes (width bmp)
     + pixel_bytes (width bmp))%nat ->
  read_bmp_4bit bmp = Raise IndexError.
Proof.
  intros Hpal Hw Hh Hdata.
  rewrite read_bmp_4bit_palette by exact Hpal. unfold decode_rows.
  rewrite bind_f_seek by apply pixel_offset_nonneg.
  apply bind_raise.
  destruct (rows_loop_total bmp (palette bmp) (width bmp)
              (palette_length bmp) Hw
              (range_down (height bmp - 1) (-1))) with
    (pos := Z.to_nat (pixel_offset bmp)) (pixels := @nil Z)
    as [_ Hraise].
  - intros Hnil. apply (f_equal (@length Z)) in Hnil.
    rewrite range_down_rows in Hnil. cbn in Hnil. lia.
  - apply Hraise. now rewrite range_down_rows.
Qed.

Lemma read_bmp_4bit_short_pixels_witness :
  read_bmp_4bit (firstn 123 sample_bmp) = Raise IndexError.
Proof.
  apply (read_bmp_4bit_short_pixels (firstn 123 sample_bmp)).
  - split; [split; [vm_compute; reflexivity|]|split; [reflexivity|]];
      apply Nat.leb_le; vm_compute; reflexivity.
  - vm_compute. reflexivity.
  - vm_compute. reflexivity.
  - apply Nat.ltb_lt. vm_compute. reflexivity.
Defined.

End BmpMore.

Section BmpPalette.

Import BmpView.

Lemma flat_map_flat_map {X Y : Type} (f : Y -> list Z) (g : X -> list Y)
    (xs : list X) :
  flat_map f (flat_map g xs) = flat_map (fun x => flat_map f (g x)) xs.
Proof.
  induction xs as [|x xs IH]; cbn [flat_map]; [reflexivity|].
  now rewrite flat_map_app, IH.
Qed.

Lemma palette_color_byte (b g r : Z) :
  0 <= b < 256 -> 0 <= g < 256 -> 0 <= r < 256 ->
  let '(r', g', b', a') := palette_color b g r in
  0 <= r' < 256 /\ 0 <= g' < 256 /\ 0 <= b' < 256 /\ (a' = 0 \/ a' = 255).
Proof.
  intros Hb Hg Hr. unfold palette_color.
  destruct ((r >? 200) && (b >? 200) && (g <? 50)); repeat split; lia || auto.
Qed.

Lemma palette_entries_are_bytes (bmp : list byte) :
  Forall (fun c : color =>
            let '(r, g, b, a) := c in
            0 <= r < 256 /\ 0 <= g < 256 /\ 0 <= b < 256
            /\ (a = 0 \/ a = 255)) (palette bmp).
Proof.
  unfold palette, palette_from. apply Forall_forall. intros c Hc.
  apply in_map_iff in Hc as (k & <- & _). unfold palette_entry_at.
  apply palette_color_byte; apply byte_nth_range.
Qed.

Lemma pixel_color_in_palette (bmp : list byte) (start : nat) (x : Z) :
  In (pixel_color bmp start x) (palette bmp).
Proof.
  unfold pixel_color. apply nth_In. rewrite palette_length.
  pose proof (nibble_range (pixel_byte bmp start x) x
                (byte_nth_range bmp _)). lia.
Qed.

Lemma stored_rows_are_bytes (bmp : list byte) :
  Forall (fun v => 0 <= v < 256) (stored_rows bmp).
Proof.
  unfold stored_rows, stored_row.
  apply Forall_flat_map, Forall_forall. intros k _.
  apply Forall_flat_map, Forall_forall. intros x _.
  pose proof (pixel_color_in_palette bmp (row_start bmp k) x) as Hin.
  pose proof (palette_entries_are_bytes bmp) as Hpal.
  rewrite Forall_forall in Hpal. specialize (Hpal _ Hin).
  unfold pixel_rgba. fold (pixel_color bmp (row_start bmp k) x).
  destruct (pixel_color bmp (row_start bmp k) x) as [[[r g] b] a].
  cbn [rgba_of]. repeat constructor; lia.
Qed.

(** X10. Every pixel [read_bmp_4bit] returns is one of the sixteen
    palette entries, and every palette entry has red, green and blue
    between 0 and 255 and an alpha of 0 or 255. *)
Theorem read_bmp_4bit_pixels_from_palette (bmp : list byte) (w h : Z)
    (pixels : list Z) :
  read_bmp_4bit bmp = Ok (w, h, pixels) ->
  (exists colors : list color,
     pixels = flat_map rgba_of colors
     /\ length colors = (Z.to_nat h * Z.to_nat w)%nat
     /\ Forall (fun c => In c (palette bmp)) colors)
  /\ length (palette bmp) = 16%nat
  /\ Forall (fun c : color =>
               let '(r, g, b, a) := c in
               0 <= r < 256 /\ 0 <= g < 256 /\ 0 <= b < 256
               /\ (a = 0 \/ a = 255)) (palette bmp)
  /\ Forall (fun v => 0 <= v < 256) pixels.
Proof.
  intros H. apply read_bmp_4bit_returns in H as (_ & H & _).
  injection H as -> -> ->.
  split; [|split; [apply palette_length
                  |split; [apply palette_entries_are_bytes
                          |apply stored_rows_are_bytes]]].
  exists (flat_map (fun k => map (pixel_color bmp (row_start bmp k))
                              (range (width bmp)))
            (seq 0 (Z.to_nat (height bmp)))).
  split; [|split].
  - unfold stored_rows, stored_row. rewrite flat_map_flat_map.
    apply flat_map_ext. intros k. now rewrite flat_map_map.
  - rewrite (flat_map_constant_length (c := Z.to_nat (width bmp))).
    + now rewrite length_seq.
    + intros k _. now rewrite length_map, range_length.
  - apply Forall_flat_map, Forall_forall. intros k _.
    apply Forall_map, Forall_forall. intros x _.
    apply pixel_color_in_palette.
Qed.

Lemma read_bmp_4bit_pixels_from_palette_witness :
  Forall (fun v => 0 <= v < 256) (stored_rows sample_bmp).
Proof.
  refine (proj2 (proj2 (proj2 (read_bmp_4bit_pixels_from_palette sample_bmp
                                 3 2 (stored_rows sample_bmp) _)))).
  vm_compute. reflexivity.
Defined.

(** The loop over the rows of an image with no column and a row size of
    zero. *)
Lemma rows_loop_zero_size (bmp : list byte) (colors : list color)
    (w : Z) (ys : list Z) :
  w <= 0 -> row_size w = 0 ->
  forall (pos : nat) (pixels : list Z),
  fst (for_io ys (row_body colors w) pixels bmp pos) = Ok pixels.
Proof.
  intros Hw Hrs. induction ys as [|y ys IH]; intros pos pixels;
    [reflexivity|].
  cbn [for_io]. unfold row_body at 1. rewrite bind_assoc.
  rewrite bind_f_read by lia. unfold decode_row, range.
  replace (Z.to_nat w) with 0%nat by lia. cbn [seq map for_each lift].
  unfold bind at 1, ret at 1. apply IH.
Qed.

(** X11. On a 4-bit bitmap file with its header and palette and a
    positive height, a declared width between -7 and 0 gives a row size
    of zero and [read_bmp_4bit] returns no pixel; a declared width of -8
    or less gives a negative row size, which the read of the first row
    refuses: [read_bmp_4bit] raises [ReadLengthError]. *)
Theorem read_bmp_4bit_no_column (bmp : list byte) :
  has_palette bmp -> 0 < height bmp -> width bmp <= 0 ->
  (-8 < width bmp ->
   read_bmp_4bit bmp = Ok (width bmp, height bmp, []))
  /\ (width bmp <= -8 -> read_bmp_4bit bmp = Raise ReadLengthError).
Proof.
  intros Hpal Hh Hw. rewrite read_bmp_4bit_palette by exact Hpal.
  unfold decode_rows. rewrite bind_f_seek by apply pixel_offset_nonneg.
  split; intros Hw8.
  - apply bind_ret_ok with (f := fun px => (width bmp, height bmp, px)).
    apply rows_loop_zero_size; [exact Hw|].
    unfold row_size.
    pose proof (Z.div_mod (width bmp * 4 + 31) 32 ltac:(lia)).
    pose proof (Z.mod_pos_bound (width bmp * 4 + 31) 32 ltac:(lia)). lia.
  - apply bind_raise.
    destruct (range_down (height bmp - 1) (-1)) as [|y ys] eqn:E.
    + apply (f_equal (@length Z)) in E. rewrite range_down_rows in E.
      cbn in E. lia.
    + cbn [for_io]. apply bind_raise. unfold row_body. apply bind_raise.
      unfold f_read.
      destruct (Z.ltb_spec (row_size (width bmp)) (-1)) as [_|Hrs];
        [reflexivity|exfalso].
      unfold row_size in Hrs.
      pose proof (Z.div_mod (width bmp * 4 + 31) 32 ltac:(lia)).
      pose proof (Z.mod_pos_bound (width bmp * 4 + 31) 32 ltac:(lia)). lia.
Qed.

Lemma read_bmp_4bit_no_column_witness :
  read_bmp_4bit (make_bmp (-3) 2 4 []) = Ok (-3, 2, [])
  /\ read_bmp_4bit (make_bmp (-8) 2 4 []) = Raise ReadLengthError.
Proof.
  split.
  - apply (proj1 (read_bmp_4bit_no_column (make_bmp (-3) 2 4 [])
                    ltac:(split; [split; [vm_compute; reflexivity|]
                                 |split; [reflexivity|]];
                          apply Nat.leb_le; vm_compute; reflexivity)
                    ltac:(vm_compute; reflexivity)
                    ltac:(vm_compute; discriminate))).
    vm_compute. reflexivity.
  - apply (proj2 (read_bmp_4bit_no_column (make_bmp (-8) 2 4 [])
                    ltac:(split; [split; [vm_compute; reflexivity|]
                                 |split; [reflexivity|]];
                          apply Nat.leb_le; vm_compute; reflexivity)
                    ltac:(vm_compute; reflexivity)
                    ltac:(vm_compute; discriminate))).
    vm_compute. discriminate.
Defined.

End BmpPalette.

(** ** The generated text *)

Section RustText.

Import Ascii String Text RustView.

Lemma append_assoc (a b c : string) :
  ((a ++ b) ++ c = a ++ (b ++ c))%string.
Proof. induction a as [|x a IH]; cbn; [reflexivity|now rewrite IH]. Qed.

Lemma append_nil_r (a : string) : (a ++ "" = a)%string.
Proof. induction a as [|x a IH]; cbn; [reflexivity|now rewrite IH]. Qed.

(** The loop that appends the lines, as one concatenation. *)
Lemma fold_append {X : Type} (line : X -> string) (xs : list X) :
  forall code : string,
  fold_left (fun code x => (code ++ line x)%string) xs code
  = (code ++ String.concat "" (map line xs))%string.
Proof.
  induction xs as [|x xs IH]; intros code; cbn [fold_left map].
  - cbn. now rewrite append_nil_r.
  - rewrite IH, append_assoc. f_equal.
    destruct xs as [|y ys]; cbn; [now rewrite append_nil_r|reflexivity].
Qed.

Lemma concat_empty_cons (x : string) (xs : list string) :
  String.concat "" (x :: xs) = (x ++ String.concat "" xs)%string.
Proof. destruct xs; cbn; [now rewrite append_nil_r|reflexivity]. Qed.

Lemma range_step_16 (n : nat) :
  range_step (Z.of_nat n) 16
  = map (fun k => Z.of_nat (16 * k)) (seq 0 ((n + 15) / 16)).
Proof.
  unfold range_step.
  replace (Z.to_nat ((Z.of_nat n + 16 - 1) / 16)) with ((n + 15) / 16)%nat.
  - apply map_ext. intros k. lia.
  - replace (Z.of_nat n + 16 - 1) with (Z.of_nat (n + 15)) by lia.
    change 16 with (Z.of_nat 16). rewrite <- Nat2Z.inj_div. lia.
Qed.

(** The lines both scripts append are the lines of [data_text]. *)
Lemma data_loop (pixels : list Z) (code : string) :
  fold_left (fun code i =>
      let chunk := slice pixels (Z.to_nat i) (Z.to_nat (i + 16)) in
      (code ++ (("    "
                 ++ String.concat ", "
                      (map (fun b => "0x" ++ format_02x b) chunk))
                ++ "," ++ nl))%string)
    (range_step (Z.of_nat (List.length pixels)) 16) code
  = (code ++ data_text pixels)%string.
Proof.
  cbv zeta.
  rewrite (fold_append
             (fun i => data_line (slice pixels (Z.to_nat i)
                                    (Z.to_nat (i + 16))))).
  unfold data_text, chunks. rewrite range_step_16, !map_map. do 2 f_equal.
  apply map_ext. intros k. unfold slice. rewrite Nat2Z.id.
  replace (Z.to_nat (Z.of_nat (16 * k) + 16) - 16 * k)%nat with 16%nat
    by lia.
  reflexivity.
Qed.

(** Runs of sixteen. *)
Lemma concat_runs (n : nat) : forall l : list Z,
  (List.length l <= 16 * n)%nat ->
  List.concat (map (fun k => firstn 16 (skipn (16 * k) l)) (seq 0 n)) = l.
Proof.
  induction n as [|n IH]; intros l Hlen.
  - destruct l; [reflexivity|cbn in Hlen; lia].
  - cbn [seq map List.concat]. rewrite <- seq_shift, map_map.
    rewrite (map_ext _ (fun k => firstn 16 (skipn (16 * k) (skipn 16 l)))).
    + rewrite IH by (rewrite length_skipn; lia).
      change (16 * 0)%nat with 0%nat. cbn [skipn]. apply firstn_skipn.
    + intros k. rewrite skipn_skipn. do 2 f_equal. lia.
Qed.

Lemma div_16_bounds (n : nat) :
  (n <= 16 * ((n + 15) / 16) < n + 16)%nat.
Proof.
  pose proof (Nat.div_mod_eq (n + 15) 16).
  pose proof (Nat.mod_upper_bound (n + 15) 16 ltac:(lia)). lia.
Qed.

Lemma chunks_partition (pixels : list Z) :
  List.concat (chunks pixels) = pixels
  /\ List.length (chunks pixels) = ((List.length pixels + 15) / 16)%nat.
Proof.
  split.
  - unfold chunks. apply concat_runs.
    pose proof (div_16_bounds (List.length pixels)). lia.
  - unfold chunks. now rewrite length_map, length_seq.
Qed.

(** X12. The text [generate_rust_code] returns, in both scripts, is its
    heading, which declares the number of pixels given, then one line
    per run of sixteen pixels, then the closing line; for the icons the
    name is a string of ASCII characters, which [upper] is written for.
    The runs are the pixels in order, each once: all have sixteen values
    but the last, which has between one and sixteen, and there are
    [ceil(len(pixels) / 16)] of them. *)
Theorem generate_rust_code_lines (pixels : list Z) :
  (forall icon_name,
     ascii_only icon_name = true ->
     ConvertIcons.generate_rust_code icon_name pixels
     = (icon_prelude icon_name (List.length pixels)
        ++ String.concat "" (map data_line (chunks pixels))
        ++ "];" ++ nl)%string)
  /\ (forall width height,
        ConvertStartBmp.generate_rust_code width height pixels
        = (logo_prelude width height (List.length pixels)
           ++ String.concat "" (map data_line (chunks pixels))
           ++ "];" ++ nl)%string)
  /\ List.concat (chunks pixels) = pixels
  /\ List.length (chunks pixels) = ((List.length pixels + 15) / 16)%nat
  /\ (forall (k : nat) (chunk : list Z),
        nth_error (chunks pixels) k = Some chunk ->
        (0 < List.length chunk <= 16)%nat
        /\ ((S k < List.length (chunks pixels))%nat ->
            List.length chunk = 16%nat)).
Proof.
  split; [|split; [|split; [|split]]].
  - intros icon_name _. unfold ConvertIcons.generate_rust_code. cbv zeta.
    rewrite data_loop, append_assoc. reflexivity.
  - intros width height. unfold ConvertStartBmp.generate_rust_code.
    cbv zeta. rewrite data_loop, append_assoc. reflexivity.
  - apply chunks_partition.
  - apply chunks_partition.
  - intros k chunk Hk. unfold chunks in *.
    rewrite length_map, length_seq. rewrite nth_error_map in Hk.
    destruct (nth_error (seq 0 _) k) as [j|] eqn:Ej; [|discriminate Hk].
    assert (k < (List.length pixels + 15) / 16)%nat as Hlt.
    { assert (nth_error (seq 0 ((List.length pixels + 15) / 16)) k <> None)
        as Hsome by (rewrite Ej; discriminate).
      apply nth_error_Some in Hsome. now rewrite length_seq in Hsome. }
    rewrite nth_error_seq in Ej.
    destruct (Nat.ltb_spec k ((List.length pixels + 15) / 16)); [|lia].
    injection Ej as <-. cbn [option_map Nat.add] in Hk.
    assert (chunk = firstn 16 (skipn (16 * k) pixels)) as -> by congruence.
    rewrite length_firstn, length_skipn.
    pose proof (div_16_bounds (List.length pixels)). lia.
Qed.

Lemma format_02x_byte (y : byte) (rest : string) :
  String.length (format_02x (byte_val y)) = 2%nat
  /\ read_data ("0x" ++ format_02x (byte_val y) ++ rest)%string
     = byte_val y :: read_data rest.
Proof. destruct y; split; reflexivity. Qed.

Lemma byte_val_of_Z (b : Z) : 0 <= b < 256 -> byte_val (byte_of_Z b) = b.
Proof.
  intros Hb. unfold byte_val, byte_of_Z.
  destruct (Byte.of_N (Z.to_N b)) as [y|] eqn:E.
  - apply Byte.to_of_N in E. lia.
  - apply Byte.of_N_None_iff in E. lia.
Qed.

Lemma read_literal (b : Z) (rest : string) :
  0 <= b < 256 ->
  read_data (literal b ++ rest)%string = b :: read_data rest.
Proof.
  intros Hb. rewrite <- (byte_val_of_Z b Hb). unfold literal.
  rewrite append_assoc. apply format_02x_byte.
Qed.

Lemma read_skip (c : ascii) (s : string) :
  Ascii.eqb c "0" = false -> read_data (String c s) = read_data s.
Proof.
  intros Hc. cbn [read_data]. rewrite Hc. cbn [andb].
  now destruct s as [|x [|h [|l s']]].
Qed.

Lemma read_joined (chunk : list Z) (rest : string) :
  Forall (fun b => 0 <= b < 256) chunk ->
  read_data (String.concat ", " (map literal chunk) ++ "," ++ nl ++ rest)
  = (chunk ++ read_data rest)%list.
Proof.
  induction chunk as [|b chunk IH]; intros Hbytes.
  - cbn [map String.concat String.append nl List.app].
    now rewrite !read_skip by reflexivity.
  - inversion Hbytes as [|b' chunk' Hb Hrest]; subst.
    destruct chunk as [|c chunk].
    + cbn [map String.concat]. rewrite read_literal by exact Hb.
      cbn [String.append nl List.app]. f_equal.
      now rewrite !read_skip by reflexivity.
    + change (String.concat ", " (map literal (b :: c :: chunk)))
        with (literal b ++ ", "
              ++ String.concat ", " (map literal (c :: chunk)))%string.
      change ((b :: c :: chunk) ++ read_data rest)%list
        with (b :: ((c :: chunk) ++ read_data rest))%list.
      rewrite <- (IH Hrest).
      rewrite !append_assoc. rewrite read_literal by exact Hb. f_equal.
      change (", " ++ ?s)%string with (String "," (String " " s)).
      now rewrite !read_skip by reflexivity.
Qed.

Lemma read_data_line (chunk : list Z) (rest : string) :
  Forall (fun b => 0 <= b < 256) chunk ->
  read_data (data_line chunk ++ rest)
  = (chunk ++ read_data rest)%list.
Proof.
  intros Hbytes. unfold data_line. rewrite !append_assoc.
  change ("    " ++ ?s)%string
    with (String " " (String " " (String " " (String " " s)))).
  rewrite !read_skip by reflexivity. now apply read_joined.
Qed.

Lemma read_lines (cs : list (list Z)) :
  Forall (Forall (fun b => 0 <= b < 256)) cs ->
  read_data (String.concat "" (map data_line cs)) = List.concat cs.
Proof.
  induction cs as [|chunk cs IH]; intros Hbytes; [reflexivity|].
  inversion Hbytes as [|c cs' Hc Hcs]; subst. cbn [map List.concat].
  rewrite concat_empty_cons, read_data_line by exact Hc.
  now rewrite IH.
Qed.

Lemma read_data_text (pixels : list Z) :
  Forall (fun b => 0 <= b < 256) pixels ->
  read_data (data_text pixels) = pixels.
Proof.
  intros Hbytes. unfold data_text.
  destruct (chunks_partition pixels) as [Hcat _].
  rewrite read_lines; [exact Hcat|].
  apply Forall_concat. now rewrite Hcat.
Qed.

Lemma generate_icon_code (icon_name : string) (pixels : list Z) :
  ConvertIcons.generate_rust_code icon_name pixels
  = (icon_prelude icon_name (List.length pixels)
     ++ data_text pixels ++ "];" ++ nl)%string.
Proof.
  unfold ConvertIcons.generate_rust_code. cbv zeta.
  now rewrite data_loop, append_assoc.
Qed.

Lemma generate_logo_code (width height : Z) (pixels : list Z) :
  ConvertStartBmp.generate_rust_code width height pixels
  = (logo_prelude width height (List.length pixels)
     ++ data_text pixels ++ "];" ++ nl)%string.
Proof.
  unfold ConvertStartBmp.generate_rust_code. cbv zeta.
  now rewrite data_loop, append_assoc.
Qed.

(** *** Reading a generated file *)

Lemma drop_line_app (a b : string) :
  one_line a = true -> drop_line (a ++ b) = drop_line b.
Proof.
  induction a as [|c a IH]; intros Ha; [reflexivity|].
  cbn [one_line] in Ha. apply andb_prop in Ha. destruct Ha as [Hc Ha].
  cbn [String.append drop_line].
  destruct (Ascii.eqb c (ascii_of_nat 10)); [discriminate Hc|now apply IH].
Qed.

Lemma drop_line_nl (s : string) : drop_line (nl ++ s) = s.
Proof. reflexivity. Qed.

Lemma upper_char_nl (c : ascii) :
  Ascii.eqb (upper_char c) (ascii_of_nat 10)
  = Ascii.eqb c (ascii_of_nat 10).
Proof. destruct c as [[] [] [] [] [] [] [] []]; reflexivity. Qed.

Lemma one_line_upper (s : string) : one_line (upper s) = one_line s.
Proof.
  induction s as [|c s IH]; [reflexivity|].
  cbn [upper one_line]. now rewrite upper_char_nl, IH.
Qed.

Lemma one_line_digits (d : Decimal.uint) :
  one_line (DecimalString.NilEmpty.string_of_uint d) = true.
Proof. induction d; cbn; [reflexivity|assumption..]. Qed.

Lemma one_line_str_int (z : Z) : one_line (str_int z) = true.
Proof.
  unfold str_int.
  destruct (Z.to_int z) as [d|d];
    cbn [DecimalString.NilZero.string_of_int];
    [|cbn [one_line]; change (negb (Ascii.eqb "-" (ascii_of_nat 10)))
        with true; cbn [andb]];
    (destruct d; [reflexivity|apply one_line_digits..]).
Qed.

Ltac next_line :=
  repeat (rewrite drop_line_app
            by first [ reflexivity | assumption | apply one_line_str_int
                     | rewrite one_line_upper; assumption ]);
  rewrite drop_line_nl.

(** After the four lines of a heading comes what followed it. *)
Lemma read_code_icon (icon_name : string) (n : nat) (rest : string) :
  one_line icon_name = true ->
  read_code (icon_prelude icon_name n ++ rest) = read_data rest.
Proof.
  intros Hname. unfold read_code, icon_prelude. rewrite !append_assoc.
  now do 4 next_line.
Qed.

Lemma read_code_logo (width height : Z) (n : nat) (rest : string) :
  read_code (logo_prelude width height n ++ rest) = read_data rest.
Proof.
  unfold read_code, logo_prelude. rewrite !append_assoc.
  now do 4 next_line.
Qed.

Lemma read_lines_then (cs : list (list Z)) (rest : string) :
  Forall (Forall (fun b => 0 <= b < 256)) cs ->
  read_data (String.concat "" (map data_line cs) ++ rest)
  = (List.concat cs ++ read_data rest)%list.
Proof.
  induction cs as [|chunk cs IH]; intros Hbytes; [reflexivity|].
  inversion Hbytes as [|c cs' Hc Hcs]; subst. cbn [map List.concat].
  rewrite concat_empty_cons, append_assoc, read_data_line by exact Hc.
  now rewrite IH, app_assoc.
Qed.

Lemma read_array (pixels : list Z) :
  Forall (fun b => 0 <= b < 256) pixels ->
  read_data (data_text pixels ++ "];" ++ nl) = pixels.
Proof.
  intros Hbytes. unfold data_text.
  destruct (chunks_partition pixels) as [Hcat _].
  rewrite read_lines_then; [|apply Forall_concat; now rewrite Hcat].
  rewrite Hcat. change (read_data ("];" ++ nl)) with (@nil Z).
  apply app_nil_r.
Qed.

Lemma read_icon_code (icon_name : string) (pixels : list Z) :
  one_line icon_name = true ->
  Forall (fun b => 0 <= b < 256) pixels ->
  read_code (ConvertIcons.generate_rust_code icon_name pixels) = pixels.
Proof.
  intros Hname Hbytes.
  rewrite generate_icon_code, read_code_icon by exact Hname.
  now apply read_array.
Qed.

Lemma read_logo_code (width height : Z) (pixels : list Z) :
  Forall (fun b => 0 <= b < 256) pixels ->
  read_code (ConvertStartBmp.generate_rust_code width height pixels)
  = pixels.
Proof.
  intros Hbytes. rewrite generate_logo_code, read_code_logo.
  now apply read_array.
Qed.

(** X13. The text [generate_rust_code] returns reads back as the pixels
    it was given, in both scripts: when every pixel is between 0 and
    255, each is written as "0x" and exactly two hexadecimal digits, and
    a reader that passes over the four lines of the heading and takes
    the values of what follows gets the pixels again, in order.  So the
    text determines the pixels: two lists of bytes with the same text
    are the same list, whatever the names or the sizes written in the
    headings.  For the icons the name is a string of ASCII characters
    without a line feed. *)
Theorem generate_rust_code_round_trip (pixels : list Z) :
  Forall (fun b => 0 <= b < 256) pixels ->
  (forall icon_name,
     ascii_only icon_name = true -> one_line icon_name = true ->
     read_code (ConvertIcons.generate_rust_code icon_name pixels) = pixels)
  /\ (forall width height,
        read_code (ConvertStartBmp.generate_rust_code width height pixels)
        = pixels)
  /\ Forall (fun b => String.length (literal b) = 4%nat) pixels
  /\ (forall icon_name icon_name' pixels',
        ascii_only icon_name = true -> one_line icon_name = true ->
        ascii_only icon_name' = true -> one_line icon_name' = true ->
        Forall (fun b => 0 <= b < 256) pixels' ->
        ConvertIcons.generate_rust_code icon_name pixels
        = ConvertIcons.generate_rust_code icon_name' pixels' ->
        pixels = pixels')
  /\ (forall width height width' height' pixels',
        Forall (fun b => 0 <= b < 256) pixels' ->
        ConvertStartBmp.generate_rust_code width height pixels
        = ConvertStartBmp.generate_rust_code width' height' pixels' ->
        pixels = pixels').
Proof.
  intros Hbytes.
  split; [intros icon_name _ Hname; now apply read_icon_code|].
  split; [intros width height; now apply read_logo_code|].
  split; [|split].
  - eapply Forall_impl; [|exact Hbytes]. intros b Hb. cbv beta in Hb.
    rewrite <- (byte_val_of_Z b Hb). unfold literal.
    change (String.length ("0x" ++ ?s)) with (S (S (String.length s))).
    now rewrite (proj1 (format_02x_byte _ "")).
  - intros icon_name icon_name' pixels' _ Hname _ Hname' Hbytes' Heq.
    rewrite <- (read_icon_code icon_name pixels Hname Hbytes),
      <- (read_icon_code icon_name' pixels' Hname' Hbytes').
    now rewrite Heq.
  - intros width height width' height' pixels' Hbytes' Heq.
    rewrite <- (read_logo_code width height pixels Hbytes),
      <- (read_logo_code width' height' pixels' Hbytes').
    now rewrite Heq.
Qed.

End RustText.

Section RustTextUse.

Import Ascii String Text RustView.

Lemma generate_rust_code_lines_witness :
  ConvertIcons.generate_rust_code "MY_COMPUTER" (List.repeat 7 20)
  = (icon_prelude "MY_COMPUTER" 20
     ++ String.concat "" (map data_line (chunks (List.repeat 7 20)))
     ++ "];" ++ nl)%string
  /\ List.length (firstn 16 (skipn (16 * 0) (List.repeat 7 20))) = 16%nat.
Proof.
  split.
  - refine (proj1 (generate_rust_code_lines (List.repeat 7 20))
              "MY_COMPUTER"%string _).
    reflexivity.
  - refine (proj2 (proj2 (proj2 (proj2 (proj2
              (generate_rust_code_lines (List.repeat 7 20))))) 0%nat _ _) _).
    + reflexivity.
    + cbn. lia.
Defined.

Lemma generate_rust_code_round_trip_witness :
  read_code (ConvertIcons.generate_rust_code "MY_COMPUTER" [1; 255; 16; 0])
  = [1; 255; 16; 0].
Proof.
  refine (proj1 (generate_rust_code_round_trip [1; 255; 16; 0] _)
            "MY_COMPUTER"%string _ _).
  - repeat constructor; lia.
  - reflexivity.
  - reflexivity.
Defined.

(** The names in the dictionary of [main] are strings of ASCII
    characters on one line, and its file names as well. *)
Example icons_names_are_ascii :
  Forall (fun icon =>
            ascii_only (fst icon) = true /\ one_line (fst icon) = true
            /\ ascii_only (snd icon) = true)
    ConvertIcons.icons.
Proof. repeat constructor. Qed.

(** A text with a name that holds a value of its own, read back. *)
Example generate_rust_code_name_with_value :
  read_code (ConvertIcons.generate_rust_code "0x41" [1; 2]) = [1; 2]
  /\ read_data (ConvertIcons.generate_rust_code "0x41" [1; 2])
     = [65; 1; 2].
Proof. split; vm_compute; reflexivity. Qed.

(** The text written for the 4-bit sample. *)
Example generate_rust_code_sample :
  ConvertStartBmp.generate_rust_code 1 1 [255; 0; 18; 255]
  = ("// Auto-generated from start16.bmp" ++ nl
     ++ "pub const WINDOWS_LOGO_WIDTH: usize = 1;" ++ nl
     ++ "pub const WINDOWS_LOGO_HEIGHT: usize = 1;" ++ nl
     ++ "pub const WINDOWS_LOGO_DATA: [u8; 4] = [" ++ nl
     ++ "    0xff, 0x00, 0x12, 0xff," ++ nl
     ++ "];" ++ nl)%string.
Proof. vm_compute. reflexivity. Qed.

(** One turn of the loop of [main] appends the piece of its icon. *)
Lemma main_loop (files : string -> option (list byte))
    (icons : list (string * string)) :
  forall (rust_code : string) (printed : list ConvertIcons.main_event),
  fst (fold_left (fun '(rust_code, printed) '(icon_name, icon_file) =>
      let printed := (printed ++ [ConvertIcons.Converting icon_file])%list in
      match files icon_file with
      | None =>
          (rust_code,
           (printed ++ [ConvertIcons.Error_processing icon_file
                          ConvertIcons.No_such_file])%list)
      | Some ico =>
          match parse_ico ico with
          | Raise e =>
              (rust_code,
               (printed ++ [ConvertIcons.Error_processing icon_file
                              (ConvertIcons.Raised e)])%list)
          | Ok (image_data, bit_count) =>
              match bmp_to_rgba image_data bit_count with
              | Raise e =>
                  (rust_code,
                   (printed
                    ++ [ConvertIcons.Error_processing icon_file
                          (ConvertIcons.Raised e)])%list)
              | Ok (pixels, events) =>
                  ((rust_code
                    ++ ConvertIcons.generate_rust_code icon_name pixels
                    ++ nl)%string,
                   (printed ++ map ConvertIcons.Printed events)%list)
              end
          end
      end) icons (rust_code, printed))
  = (rust_code ++ String.concat "" (map (piece files) icons))%string.
Proof.
  induction icons as [|[icon_name icon_file] icons IH];
    intros rust_code printed.
  - cbn. now rewrite append_nil_r.
  - cbn [fold_left map]. rewrite concat_empty_cons.
    unfold piece at 1. cbn [fst snd]. unfold convert_icon.
    destruct (files icon_file) as [ico|]; [|now rewrite IH].
    destruct (parse_ico ico) as [[image_data bit_count]|e]; cbn [rbind];
      [|now rewrite IH].
    destruct (bmp_to_rgba image_data bit_count) as [[pixels events]|e];
      [|now rewrite IH].
    now rewrite IH, !append_assoc.
Qed.

(** X14. The text [main] writes is the banner followed, in the order of
    the icons, by what each icon contributes on its own: the generated
    code and an empty line when its file opens and converts, nothing at
    all when the file is missing or any step of the conversion raises.
    A bad file neither stops the others nor leaves a partial entry. *)
Theorem main_writes_converted_icons (icons : list (string * string))
    (files : string -> option (list byte)) :
  fst (ConvertIcons.main icons files)
  = (banner ++ String.concat "" (map (piece files) icons))%string
  /\ (forall icon,
        files (snd icon) = None
        \/ (exists ico e, files (snd icon) = Some ico
                          /\ convert_icon ico = Raise e) ->
        piece files icon = ""%string)
  /\ (forall icon ico pixels events,
        files (snd icon) = Some ico ->
        convert_icon ico = Ok (pixels, events) ->
        piece files icon
        = (ConvertIcons.generate_rust_code (fst icon) pixels ++ nl)%string
        /\ List.length pixels = 4096%nat).
Proof.
  split; [|split].
  - unfold ConvertIcons.main. cbv zeta.
    rewrite <- (main_loop files icons _ []).
    now destruct (fold_left _ icons _).
  - intros icon [Hnone | (ico & e & Hsome & Hraise)]; unfold piece.
    + now rewrite Hnone.
    + now rewrite Hsome, Hraise.
  - intros icon ico pixels events Hsome Hok. unfold piece.
    rewrite Hsome, Hok. split; [reflexivity|].
    unfold convert_icon in Hok.
    destruct (parse_ico ico) as [[image_data bit_count]|e];
      [|discriminate Hok].
    cbn [rbind] in Hok. exact (bmp_to_rgba_length _ _ _ _ Hok).
Qed.

Lemma main_writes_converted_icons_witness :
  piece (fun _ => Some sample_bad_header) ("A", "a.ico")%string = ""%string.
Proof.
  refine (proj1 (proj2 (main_writes_converted_icons []
                          (fun _ => Some sample_bad_header))) _ _).
  right. exists sample_bad_header, InvalidContainer. split; reflexivity.
Defined.

(** X15. For every icon file that converts and every name that is a
    string of ASCII characters, the generated text declares an array of
    4096 values after the constants 32 and 32, lists the pixels on 256
    lines of sixteen values, and reads back as the pixels the decoder
    returned. *)
Theorem icon_code_matches_pixels (ico : list byte) (icon_name : string)
    (pixels : list Z) (events : list event) :
  convert_icon ico = Ok (pixels, events) ->
  ascii_only icon_name = true ->
  ConvertIcons.generate_rust_code icon_name pixels
  = (icon_prelude icon_name 4096 ++ data_text pixels ++ "];" ++ nl)%string
  /\ List.length (chunks pixels) = 256%nat
  /\ Forall (fun chunk => List.length chunk = 16%nat) (chunks pixels)
  /\ read_data (data_text pixels) = pixels.
Proof.
  intros Hok _. unfold convert_icon in Hok.
  destruct (parse_ico ico) as [[image_data bit_count]|e];
    [|discriminate Hok].
  cbn [rbind] in Hok.
  pose proof (bmp_to_rgba_length _ _ _ _ Hok) as Hlen.
  pose proof (bmp_to_rgba_bytes _ _ _ _ Hok) as Hbytes.
  split; [now rewrite generate_icon_code, Hlen|].
  split; [unfold chunks; now rewrite length_map, length_seq, Hlen|].
  split; [|now apply read_data_text].
  unfold chunks. rewrite Hlen. apply Forall_map, Forall_forall.
  intros k Hk. apply in_seq in Hk.
  change ((4096 + 15) / 16)%nat with 256%nat in Hk.
  rewrite length_firstn, length_skipn, Hlen. lia.
Qed.

Lemma icon_code_matches_pixels_witness :
  List.length (chunks DibView.placeholder) = 256%nat.
Proof.
  refine (proj1 (proj2 (icon_code_matches_pixels
                          (bytes_of (ico_header 0 1 1
                                     ++ ico_dir_entry 32 32 8 40 22)
                           ++ sample_dib8)%list
                          "MY_COMPUTER" DibView.placeholder
                          [Warning_placeholder 8] _ _))).
  - vm_compute. reflexivity.
  - reflexivity.
Defined.

(** X16. [main] of the start-button script on a bitmap file that holds
    its header, its palette and the pixel bytes of its rows, with a
    positive width and height: the text declares the width, the height
    and an array of [width * height * 4] values, and its lines read back
    as the stored rows.  A file [read_bmp_4bit] raises on makes [main]
    raise the same, nothing being caught. *)
Theorem logo_code_matches_pixels (bmp : list byte) :
  (forall e, read_bmp_4bit bmp = Raise e ->
             ConvertStartBmp.main bmp = Raise e)
  /\ (BmpView.has_palette bmp ->
      0 < BmpView.width bmp -> 0 < BmpView.height bmp ->
      (Z.to_nat (BmpView.pixel_offset bmp)
       + (Z.to_nat (BmpView.height bmp) - 1)
         * BmpView.row_bytes (BmpView.width bmp)
       + BmpView.pixel_bytes (BmpView.width bmp) <= List.length bmp)%nat ->
      ConvertStartBmp.main bmp
      = Ok (logo_prelude (BmpView.width bmp) (BmpView.height bmp)
              (Z.to_nat (BmpView.width bmp * BmpView.height bmp * 4))
            ++ data_text (BmpView.stored_rows bmp) ++ "];" ++ nl)%string
      /\ read_data (data_text (BmpView.stored_rows bmp))
         = BmpView.stored_rows bmp).
Proof.
  split.
  - intros e He. unfold ConvertStartBmp.main. now rewrite He.
  - intros Hpal Hw Hh Hdata. unfold ConvertStartBmp.main.
    rewrite read_bmp_4bit_on_complete by assumption. cbn [rbind].
    rewrite generate_logo_code, stored_rows_length.
    split; [do 3 f_equal; lia|].
    apply read_data_text, stored_rows_are_bytes.
Qed.

Lemma logo_code_matches_pixels_witness :
  read_data (data_text (BmpView.stored_rows sample_bmp))
  = BmpView.stored_rows sample_bmp.
Proof.
  refine (proj2 (proj2 (logo_code_matches_pixels sample_bmp) _ _ _ _)).
  - split; [split; [vm_compute; reflexivity|]|split; [reflexivity|]];
      apply Nat.leb_le; vm_compute; reflexivity.
  - vm_compute. reflexivity.
  - vm_compute. reflexivity.
  - apply Nat.leb_le. vm_compute. reflexivity.
Defined.

End RustTextUse.
